(** * count_locs: a shallow embedding of [src/main.go]

    The program counts the non-blank lines of the files matched by glob
    patterns under a root directory.  This development embeds [main],
    [processInput], [countLocs] and [countLines] as Rocq functions over an
    explicit model of the operating system (file system, working directory,
    glob matcher) and of the sources of nondeterminism of a run (goroutine
    completion order, Go map iteration order, elapsed time), and proves the
    properties of the program's specification about them. *)

From Stdlib Require Import ZArith NArith String Ascii List Lia Permutation.
From stdpp Require Import gmap strings list fin_maps pretty.

Local Open Scope Z_scope.

(** ** Go integers

    [int] and [int64] are 64-bit two's complement integers (the program is
    built for 64-bit targets); arithmetic wraps around. *)

Module GoInt.

Definition minInt64 : Z := - 2 ^ 63.
Definition maxInt64 : Z := 2 ^ 63 - 1.

(** The value of the low 64 bits of [z], read as a signed integer. *)
Definition wrap64 (z : Z) : Z := (z + 2 ^ 63) mod 2 ^ 64 - 2 ^ 63.

(** [a + b] on [int] / [int64], also what [atomic.AddInt64] stores. *)
Definition add64 (a b : Z) : Z := wrap64 (a + b).

Definition inRange (z : Z) : Prop := minInt64 <= z <= maxInt64.

End GoInt.

(** ** Go strings

    A Go string is a sequence of bytes; it is modelled by [string], whose
    characters are the bytes. *)

Module GoString.

Definition LF : ascii := "010"%char.
Definition CR : ascii := "013"%char.

Definition byteZ (c : ascii) : Z := Z.of_N (N_of_ascii c).

(** [s[:n]] *)
Fixpoint slice_to (n : nat) (s : string) : string :=
  match n, s with
  | O, _ => EmptyString
  | S _, EmptyString => EmptyString
  | S n', String c s' => String c (slice_to n' s')
  end.

(** [s[n:]] *)
Fixpoint slice_from (n : nat) (s : string) : string :=
  match n, s with
  | O, _ => s
  | S _, EmptyString => EmptyString
  | S n', String _ s' => slice_from n' s'
  end.

(** [s[i]], 0 out of range (never read there). *)
Definition byteAt (s : string) (i : Z) : Z :=
  if i <? 0 then 0
  else match String.get (Z.to_nat i) s with
       | Some c => byteZ c
       | None => 0
       end.

(** [bytes.IndexByte]: [None] stands for -1. *)
Fixpoint IndexByte (s : string) (c : ascii) : option nat :=
  match s with
  | EmptyString => None
  | String a s' =>
      if Ascii.eqb a c then Some O
      else match IndexByte s' c with
           | Some i => Some (S i)
           | None => None
           end
  end.

Definition isEmpty (s : string) : bool :=
  match s with EmptyString => true | String _ _ => false end.

End GoString.

Import GoString.

(** ** unicode/utf8 and unicode.IsSpace *)

Module Utf8.

Definition RuneError : Z := 0xFFFD.
Definition RuneSelf : Z := 0x80.
Definition UTFMax : nat := 4.

Definition maskx : Z := 0x3F.
Definition mask2 : Z := 0x1F.
Definition mask3 : Z := 0x0F.
Definition mask4 : Z := 0x07.
Definition locb : Z := 0x80.
Definition hicb : Z := 0xBF.

(** The table [first] with its [acceptRanges]: what a first byte
    announces.  [AS] is an ASCII byte, [XX] an invalid first byte,
    [Lead sz lo hi] the first byte of a [sz]-byte sequence whose second
    byte lies in [lo..hi]. *)
Inductive firstInfo : Type :=
| AS
| XX
| Lead (sz : nat) (lo hi : Z).

Definition first (b : Z) : firstInfo :=
  if b <? 0x80 then AS
  else if b <? 0xC2 then XX
  else if b <? 0xE0 then Lead 2 locb hicb
  else if b =? 0xE0 then Lead 3 0xA0 hicb
  else if b <? 0xED then Lead 3 locb hicb
  else if b =? 0xED then Lead 3 locb 0x9F
  else if b <? 0xF0 then Lead 3 locb hicb
  else if b =? 0xF0 then Lead 4 0x90 hicb
  else if b <? 0xF4 then Lead 4 locb hicb
  else if b =? 0xF4 then Lead 4 locb 0x8F
  else XX.

(** [utf8.DecodeRuneInString]: the first rune of [s] and its width in
    bytes; [(RuneError, 1)] on an invalid encoding. *)
Definition DecodeRuneInString (s : string) : Z * nat :=
  match s with
  | EmptyString => (RuneError, 0%nat)
  | String c0 t0 =>
      let s0 := byteZ c0 in
      match first s0 with
      | AS => (s0, 1%nat)
      | XX => (RuneError, 1%nat)
      | Lead sz lo hi =>
          if (String.length s <? sz)%nat then (RuneError, 1%nat) else
          match t0 with
          | EmptyString => (RuneError, 1%nat)
          | String c1 t1 =>
              let s1 := byteZ c1 in
              if (s1 <? lo) || (hi <? s1) then (RuneError, 1%nat) else
              if (sz <=? 2)%nat then
                (Z.lor (Z.shiftl (Z.land s0 mask2) 6) (Z.land s1 maskx), 2%nat)
              else
              match t1 with
              | EmptyString => (RuneError, 1%nat)
              | String c2 t2 =>
                  let s2 := byteZ c2 in
                  if (s2 <? locb) || (hicb <? s2) then (RuneError, 1%nat) else
                  if (sz <=? 3)%nat then
                    (Z.lor (Z.lor (Z.shiftl (Z.land s0 mask3) 12)
                                  (Z.shiftl (Z.land s1 maskx) 6))
                           (Z.land s2 maskx), 3%nat)
                  else
                  match t2 with
                  | EmptyString => (RuneError, 1%nat)
                  | String c3 _ =>
                      let s3 := byteZ c3 in
                      if (s3 <? locb) || (hicb <? s3) then (RuneError, 1%nat) else
                      (Z.lor (Z.lor (Z.lor (Z.shiftl (Z.land s0 mask4) 18)
                                           (Z.shiftl (Z.land s1 maskx) 12))
                                    (Z.shiftl (Z.land s2 maskx) 6))
                             (Z.land s3 maskx), 4%nat)
                  end
              end
          end
      end
  end.

(** [utf8.RuneStart]: [b] is not a continuation byte. *)
Definition RuneStart (b : Z) : bool := negb (Z.land b 0xC0 =? 0x80).

(** The loop [for start--; start >= lim; start-- { if RuneStart(s[start])
    { break } }] of [DecodeLastRuneInString]; it runs at most [UTFMax]
    times. *)
Fixpoint lastRuneStart (fuel : nat) (s : string) (start lim : Z) : Z :=
  match fuel with
  | O => start
  | S fuel' =>
      if start <? lim then start
      else if RuneStart (byteAt s start) then start
      else lastRuneStart fuel' s (start - 1) lim
  end.

(** [utf8.DecodeLastRuneInString] *)
Definition DecodeLastRuneInString (s : string) : Z * nat :=
  let end_ := Z.of_nat (String.length s) in
  if end_ =? 0 then (RuneError, 0%nat) else
  let start := end_ - 1 in
  let r := byteAt s start in
  if r <? RuneSelf then (r, 1%nat) else
  let lim := Z.max 0 (end_ - Z.of_nat UTFMax) in
  let start := lastRuneStart UTFMax s (start - 1) lim in
  let start := Z.max 0 start in
  let '(r, size) := DecodeRuneInString (slice_from (Z.to_nat start) s) in
  if start + Z.of_nat size =? end_ then (r, size) else (RuneError, 1%nat).

(** [unicode.IsSpace]: the Latin-1 cases, then the rest of the
    [White_Space] table. *)
Definition IsSpace (r : Z) : bool :=
  if r <=? 0xFF then
    (r =? 0x09) || (r =? 0x0A) || (r =? 0x0B) || (r =? 0x0C) || (r =? 0x0D)
    || (r =? 0x20) || (r =? 0x85) || (r =? 0xA0)
  else
    (r =? 0x1680) || ((0x2000 <=? r) && (r <=? 0x200A))
    || (r =? 0x2028) || (r =? 0x2029) || (r =? 0x202F) || (r =? 0x205F)
    || (r =? 0x3000).

End Utf8.

(** ** strings.TrimSpace *)

Module Strings.
Import Utf8.

(** The table [asciiSpace]. *)
Definition asciiSpace (c : Z) : bool :=
  (c =? 0x09) || (c =? 0x0A) || (c =? 0x0B) || (c =? 0x0C) || (c =? 0x0D)
  || (c =? 0x20).

(** [strings.TrimLeftFunc]: [for i, r := range s] decodes rune by rune
    and the result is [s[i:]] at the first rune that [f] rejects, the
    empty string when there is none.  [fuel] bounds the number of runes. *)
Fixpoint TrimLeftFunc_go (fuel : nat) (s : string) (f : Z -> bool) : string :=
  match fuel with
  | O => EmptyString
  | S fuel' =>
      if isEmpty s then EmptyString else
      let '(r, size) := DecodeRuneInString s in
      if f r then TrimLeftFunc_go fuel' (slice_from size s) f else s
  end.

Definition TrimLeftFunc (s : string) (f : Z -> bool) : string :=
  TrimLeftFunc_go (String.length s) s f.

(** [lastIndexFunc(s, f, truth)]: the loop [for i := len(s); i > 0; ...]. *)
Fixpoint lastIndexFunc_go (fuel : nat) (s : string) (i : Z)
         (f : Z -> bool) (truth : bool) : Z :=
  match fuel with
  | O => -1
  | S fuel' =>
      if i <=? 0 then -1 else
      let '(r, size) := DecodeLastRuneInString (slice_to (Z.to_nat i) s) in
      let i' := i - Z.of_nat size in
      if Bool.eqb (f r) truth then i'
      else lastIndexFunc_go fuel' s i' f truth
  end.

Definition lastIndexFunc (s : string) (f : Z -> bool) (truth : bool) : Z :=
  lastIndexFunc_go (String.length s) s (Z.of_nat (String.length s)) f truth.

(** [strings.TrimRightFunc] *)
Definition TrimRightFunc (s : string) (f : Z -> bool) : string :=
  let i := lastIndexFunc s f false in
  let i :=
    if (0 <=? i) && (RuneSelf <=? byteAt s i) then
      i + Z.of_nat (snd (DecodeRuneInString (slice_from (Z.to_nat i) s)))
    else i + 1 in
  slice_to (Z.to_nat i) s.

(** [strings.TrimFunc] *)
Definition TrimFunc (s : string) (f : Z -> bool) : string :=
  TrimRightFunc (TrimLeftFunc s f) f.

(** The second loop of [TrimSpace], [for ; stop > start; stop--], run on
    [s[start:]]. *)
Fixpoint TrimSpace_stop (s : string) (stop : nat) : string :=
  match stop with
  | O => EmptyString
  | S stop' =>
      let c := byteAt s (Z.of_nat stop') in
      if RuneSelf <=? c then TrimRightFunc (slice_to stop s) IsSpace
      else if asciiSpace c then TrimSpace_stop s stop'
      else slice_to stop s
  end.

(** [strings.TrimSpace]: the first loop, [for ; start < len(s); start++],
    by recursion on the string; it hands over to the slow path at the
    first non-ASCII byte. *)
Fixpoint TrimSpace (s : string) : string :=
  match s with
  | EmptyString => EmptyString
  | String c s' =>
      if RuneSelf <=? byteZ c then TrimFunc s IsSpace
      else if asciiSpace (byteZ c) then TrimSpace s'
      else TrimSpace_stop s (String.length s)
  end.

End Strings.

(** ** bufio.Scanner with the split function ScanLines *)

Module Bufio.

(** [bufio.MaxScanTokenSize]: the size the scanner's buffer may grow to. *)
Definition MaxScanTokenSize : nat := 64 * 1024.

(** [dropCR]: drop one trailing carriage return. *)
Fixpoint dropCR (data : string) : string :=
  match data with
  | EmptyString => EmptyString
  | String c EmptyString => if Ascii.eqb c CR then EmptyString else data
  | String c rest => String c (dropCR rest)
  end.

(** [bufio.ScanLines]: the number of bytes to advance and the token, if
    the data holds one. *)
Definition ScanLines (data : string) (atEOF : bool) : nat * option string :=
  if atEOF && isEmpty data then (O, None)
  else match IndexByte data LF with
       | Some i => (S i, Some (dropCR (slice_to i data)))
       | None =>
           if atEOF then (String.length data, Some (dropCR data))
           else (O, None)
       end.

(** The state of a scanner over a file: the bytes of the file that no
    token has consumed yet, the last token, and whether scanning stopped
    on [ErrTooLong] (what [Scanner.Err] would report). *)
Record Scanner : Type := mkScanner {
  input : string;
  token : string;
  tooLong : bool
}.

Definition NewScanner (content : string) : Scanner :=
  {| input := content; token := EmptyString; tooLong := false |}.

(** [Scanner.Scan], for the calls up to and including the first one that
    returns false (a [for scanner.Scan()] loop makes no other).  The
    buffer grows up to [MaxScanTokenSize] bytes and is refilled from the
    file until the split function finds a token in it.  Hence the split
    function sees at most the first [MaxScanTokenSize] unconsumed bytes; it
    is told [atEOF] when the file ends before the buffer is full; when the
    buffer is full and holds no token the scan stops with [ErrTooLong]. *)
Definition Scan (s : Scanner) : bool * Scanner :=
  let atEOF := (String.length (input s) <? MaxScanTokenSize)%nat in
  let buf := slice_to MaxScanTokenSize (input s) in
  match ScanLines buf atEOF with
  | (advance, Some tok) =>
      (true, {| input := slice_from advance (input s); token := tok;
                tooLong := false |})
  | (_, None) =>
      (false, {| input := input s; token := EmptyString;
                 tooLong := negb atEOF |})
  end.

(** [Scanner.Text] *)
Definition Text (s : Scanner) : string := token s.

End Bufio.

Import GoInt Bufio Strings.

(** ** The operating system seen by one run

    The file system is read-only for the program and is taken not to
    change while it runs, so every system call is a function of its
    arguments.  An [error] value is modelled by the message that [%v]
    prints for it. *)

Inductive result (A : Type) : Type :=
| Ok (a : A)
| Err (msg : string).
Arguments Ok {A} a.
Arguments Err {A} msg.

(** [fs.FileInfo], of which the program reads [IsDir] only. *)
Record FileInfo : Type := mkFileInfo { IsDir : bool }.

Record OS : Type := mkOS {
  (** [os.Getwd] *)
  Getwd : result string;
  (** [filepath.Clean] and [filepath.Join], pure functions on paths *)
  Clean : string -> string;
  Join : string -> string -> string;
  (** [doublestar.Glob(os.DirFS(root), pattern)]: the matched paths,
      relative to [root], or the error of a malformed pattern *)
  Glob : string -> string -> result (list string);
  (** [os.Stat]: [None] when it returns an error *)
  Stat : string -> option FileInfo;
  (** [os.Open]: [None] when the file cannot be opened, otherwise the
      bytes that reading the file delivers until end of file or until the
      first read error (the scanner treats both alike) *)
  Open : string -> option string
}.

(** What one run does not determine: the order in which the goroutines of
    the [n]-th pattern reach their [atomic.AddInt64], the order in which
    each of the two [range results] loops of [processInput] visits the map,
    and the elapsed time as [%v] prints it. *)
Record Sched : Type := mkSched {
  goOrder : nat -> list string -> list string;
  rangeSum : list (string * Z) -> list (string * Z);
  rangePrint : list (string * Z) -> list (string * Z);
  elapsed : string
}.

(** Every goroutine started runs once before [wg.Wait] returns, and a
    [range] loop visits every entry of the map once. *)
Definition sched_ok (sc : Sched) : Prop :=
  (forall n l, goOrder sc n l ≡ₚ l) /\
  (forall l, rangeSum sc l ≡ₚ l) /\
  (forall l, rangePrint sc l ≡ₚ l).

(** The schedule that keeps every order as it comes. *)
Definition seqSched (d : string) : Sched :=
  {| goOrder := fun _ l => l; rangeSum := fun l => l;
     rangePrint := fun l => l; elapsed := d |}.

(** What a function wrote and whether it called [os.Exit]. *)
Record Output : Type := mkOutput {
  stdout : string;
  stderr : string;
  exit : option Z
}.

(** The exit status of the process when [main] produced [out]. *)
Definition exitStatus (out : Output) : Z := default 0 (exit out).

Definition nl : string := String LF EmptyString.
Definition tab : string := String "009"%char EmptyString.
Definition dquote : string := String "034"%char EmptyString.

(** ** path/filepath *)

(** [filepath.IsAbs] (Unix) *)
Definition IsAbs (path : string) : bool := String.prefix "/" path.

(** [filepath.Abs] *)
Definition Abs (os : OS) (path : string) : result string :=
  if IsAbs path then Ok (Clean os path)
  else match Getwd os with
       | Err e => Err e
       | Ok wd => Ok (Join os wd path)
       end.

(** ** The program *)

Definition version : string := "0.1.0".

Definition helpMessage : string :=
  "Usage: count_locs <directory> <glob-patterns>..." +:+ nl +:+
  nl +:+
  "Options:" +:+ nl +:+
  "  -h, --help       Show this help message" +:+ nl +:+
  "  -v, --version    Show version information" +:+ nl +:+
  nl +:+
  "Examples:" +:+ nl +:+
  "  count_locs ./src " +:+ dquote +:+ "**/*.rs" +:+ dquote +:+ " "
    +:+ dquote +:+ "**/*.ts" +:+ dquote +:+ nl +:+
  "  count_locs ./ " +:+ dquote +:+ "**/*.css" +:+ dquote +:+ nl.

Definition usageLine : string :=
  "Usage: count_locs <directory> <glob-patterns>..." +:+ nl.

(** The loop [for scanner.Scan() { ... }] of [countLines].  Every
    successful [Scan] consumes at least one byte, so [fuel] larger than the
    number of unconsumed bytes never runs out. *)
Fixpoint countLines_loop (fuel : nat) (scanner : Scanner) (count : Z) : Z :=
  match fuel with
  | O => count
  | S fuel' =>
      let '(ok, scanner') := Scan scanner in
      if ok then
        let line := Text scanner' in
        countLines_loop fuel' scanner'
          (if isEmpty (TrimSpace line) then count else add64 count 1)
      else count
  end.

(** [countLines] on the bytes of an opened file. *)
Definition countContent (content : string) : Z :=
  countLines_loop (S (String.length content)) (NewScanner content) 0.

Definition countLines (os : OS) (filePath : string) : Z :=
  match Open os filePath with
  | None => 0
  | Some content => countContent content
  end.

(** The files of one pattern for which [countLocs] starts a goroutine, in
    the order of the loop over [matches]. *)
Fixpoint spawned (os : OS) (root : string) (matches : list string) : list string :=
  match matches with
  | [] => []
  | file :: rest =>
      let fullPath := Join os root file in
      match Stat os fullPath with
      | None => spawned os root rest
      | Some info =>
          if IsDir info then spawned os root rest
          else fullPath :: spawned os root rest
      end
  end.

(** The value of [total] after [wg.Wait()]: every goroutine adds the count
    of its file with [atomic.AddInt64], in the order [order]. *)
Definition addCounts (os : OS) (order : list string) : Z :=
  fold_left (fun total filePath => add64 total (countLines os filePath)) order 0.

(** The loop over [patterns] of [countLocs], threading the map [results]
    and what was written to standard error; [n] counts the iterations. *)
Fixpoint countLocs_loop (os : OS) (sc : Sched) (root : string) (n : nat)
         (patterns : list string) (results : gmap string Z) (err : string)
  : gmap string Z * string :=
  match patterns with
  | [] => (results, err)
  | pattern :: rest =>
      match Glob os root pattern with
      | Err e =>
          countLocs_loop os sc root (S n) rest results
            (err +:+ "Error processing pattern " +:+ pattern +:+ ": " +:+ e +:+ nl)
      | Ok matches =>
          let total := addCounts os (goOrder sc n (spawned os root matches)) in
          countLocs_loop os sc root (S n) rest (<[pattern := total]> results) err
      end
  end.

Definition countLocs (os : OS) (sc : Sched) (root : string)
           (patterns : list string) : gmap string Z * string :=
  countLocs_loop os sc root O patterns ∅ EmptyString.

(** One line of the breakdown, [fmt.Printf("-  %s: %d\n", pattern, count)]. *)
Definition breakdownLine (entry : string * Z) : string :=
  "-  " +:+ entry.1 +:+ ": " +:+ pretty entry.2 +:+ nl.

Definition breakdownHeader : string := "Breakdown of Lines of Code by Glob:".

(** The breakdown section as printed for the entries visited, in order. *)
Definition breakdown (entries : list (string * Z)) : string :=
  breakdownHeader +:+ nl +:+ nl +:+
  String.concat EmptyString (map breakdownLine entries) +:+ nl.

(** The last [Printf] of [processInput]. *)
Definition totalSection (totalLines : Z) (d : string) : string :=
  "Total:" +:+ tab +:+ pretty totalLines +:+ " lines of code" +:+ nl +:+ nl +:+
  "Elapsed time: " +:+ d +:+ nl.

(** The loop [for _, count := range results { totalLines += count }]. *)
Definition sumCounts (entries : list (string * Z)) : Z :=
  fold_left (fun totalLines entry => add64 totalLines entry.2) entries 0.

Definition processInput (os : OS) (sc : Sched) (dir : string)
           (patterns : list string) : Output :=
  match Abs os dir with
  | Err e =>
      {| stdout := EmptyString;
         stderr := "Failed to resolve directory: " +:+ e +:+ nl;
         exit := Some 1 |}
  | Ok absDir =>
      let '(results, err) := countLocs os sc absDir patterns in
      let totalLines := sumCounts (rangeSum sc (map_to_list results)) in
      let section :=
        if (1 <? length patterns)%nat
        then breakdown (rangePrint sc (map_to_list results))
        else EmptyString in
      {| stdout := section +:+ totalSection totalLines (elapsed sc);
         stderr := err;
         exit := None |}
  end.

Definition printHelp : Output :=
  {| stdout := helpMessage; stderr := EmptyString; exit := None |}.

Definition printVersion : Output :=
  {| stdout := "count_locs version " +:+ version +:+ nl;
     stderr := EmptyString; exit := None |}.

Definition usageError : Output :=
  {| stdout := EmptyString; stderr := usageLine; exit := Some 1 |}.

Definition isHelpFlag (arg : string) : bool :=
  String.eqb arg "-h" || String.eqb arg "--help".

Definition isVersionFlag (arg : string) : bool :=
  String.eqb arg "-v" || String.eqb arg "--version".

(** [main], on [os.Args]: the program name, then the arguments. *)
Definition main (os : OS) (sc : Sched) (args : list string) : Output :=
  if (length args <? 2)%nat then usageError
  else if (length args =? 2)%nat then
    let arg := nth 1 args EmptyString in
    if isHelpFlag arg then printHelp
    else if isVersionFlag arg then printVersion
    else usageError
  else
    let dir := nth 1 args EmptyString in
    let patterns := drop 2 args in
    processInput os sc dir patterns.

(** ** Vocabulary of the specification *)

Definition sumZ (l : list Z) : Z := foldr Z.add 0 l.

(** The pattern is well formed: its expansion under [root] succeeds. *)
Definition globOk (os : OS) (root pattern : string) : bool :=
  match Glob os root pattern with
  | Ok _ => true
  | Err _ => false
  end.

(** The matched entries of a pattern that are files: [os.Stat] succeeds on
    them and they are not directories.  An entry that the expansion lists
    several times is several times in this list.  Empty for a malformed
    pattern. *)
Definition matchedFiles (os : OS) (root pattern : string) : list string :=
  match Glob os root pattern with
  | Ok matches => spawned os root matches
  | Err _ => []
  end.



(** The sum of [countLines] over the matched files of a pattern, as listed
    (with repetitions). *)
Definition sumOfCounts (os : OS) (root pattern : string) : Z :=
  sumZ (map (countLines os) (matchedFiles os root pattern)).

(** The per-pattern total as an [int]. *)
Definition patternTotal (os : OS) (root pattern : string) : Z :=
  wrap64 (sumOfCounts os root pattern).

(** The supplied patterns that are well formed, each once, in the order of
    their first occurrence. *)
Definition countedPatterns (os : OS) (root : string) (patterns : list string)
  : list string :=
  remove_dups (filter (fun p => globOk os root p = true) patterns).

Definition patternEntry (os : OS) (root pattern : string) : string * Z :=
  (pattern, patternTotal os root pattern).

(** The grand total as an [int]: the sum of the per-pattern totals. *)
Definition grandTotal (os : OS) (root : string) (patterns : list string) : Z :=
  wrap64 (sumZ (map (patternTotal os root) (countedPatterns os root patterns))).

(** The flags that [main] knows. *)
Definition flags : list string := ["-h"; "--help"; "-v"; "--version"].

(** The message [countLocs] writes for a malformed pattern. *)
Definition patternError (pattern e : string) : string :=
  "Error processing pattern " +:+ pattern +:+ ": " +:+ e +:+ nl.

(** The messages of the malformed patterns among [patterns], in order. *)
Fixpoint patternErrors (os : OS) (root : string) (patterns : list string) : string :=
  match patterns with
  | [] => EmptyString
  | pattern :: rest =>
      match Glob os root pattern with
      | Err e => patternError pattern e +:+ patternErrors os root rest
      | Ok _ => patternErrors os root rest
      end
  end.

(** The directory exists. *)
Definition dirExists (os : OS) (path : string) : bool :=
  match Stat os path with
  | Some info => IsDir info
  | None => false
  end.

(** The lines of a file: the pieces between line feeds; a last piece
    without line feed is a line when it is not empty. *)
Fixpoint splitLines (s : string) : list string :=
  match s with
  | EmptyString => []
  | String c s' =>
      if Ascii.eqb c LF then EmptyString :: splitLines s'
      else match splitLines s' with
           | [] => [String c EmptyString]
           | l :: ls => String c l :: ls
           end
  end.

(** The content of a line leaves out its end-of-line marker, a line feed
    with an optional carriage return before it. *)
Definition fileLines (content : string) : list string :=
  map dropCR (splitLines content).

(** A line is non-blank when trimming its whitespace leaves something. *)
Definition nonBlank (line : string) : bool := negb (isEmpty (TrimSpace line)).

(** The number of non-blank lines among [ls]. *)
Definition countNonBlank (ls : list string) : Z :=
  Z.of_nat (length (filter (fun l => nonBlank l = true) ls)).

(** The number of non-blank lines of a file. *)
Definition nonBlankLines (content : string) : Z :=
  countNonBlank (fileLines content).

(** No line of the file reaches the size of the scanner's buffer. *)
Definition shortLines (content : string) : Prop :=
  Forall (fun l => (String.length l < MaxScanTokenSize)%nat) (splitLines content).



(** ** Concrete file systems used in examples *)

Fixpoint repeatByte (n : nat) (c : ascii) : string :=
  match n with
  | O => EmptyString
  | S n' => String c (repeatByte n' c)
  end.

(** The content of the file of [TestCountLines]. *)
Definition testContent : string :=
  "Line one" +:+ nl +:+ nl +:+ "   " +:+ nl +:+ "Line two" +:+ nl +:+
  "Line three" +:+ nl.

(** A file of two lines, the first of 65536 bytes, as bundled or minified
    sources have. *)
Definition longLineContent : string :=
  repeatByte MaxScanTokenSize "x" +:+ nl +:+ "y" +:+ nl.

Definition joinSlash (a b : string) : string := a +:+ "/" +:+ b.

(** A tree [/r] with a Go file of three non-blank lines, a text file of one
    line, a directory [d], and a bundle with a long line.  ["*"] matches
    all entries and also lists [gone], which has vanished when [os.Stat]
    looks at it; ["["] is malformed. *)
Definition osDemo : OS :=
  {| Getwd := Ok "/home/u";
     Clean := fun p => p;
     Join := joinSlash;
     Glob := fun _ pattern =>
       if String.eqb pattern "[" then Err "syntax error in pattern"
       else if String.eqb pattern "*.go" then Ok ["x.go"]
       else if String.eqb pattern "*.txt" then Ok ["n.txt"]
       else if String.eqb pattern "*.js" then Ok ["min.js"]
       else if String.eqb pattern "*" then Ok ["d"; "gone"; "n.txt"; "x.go"]
       else Ok [];
     Stat := fun p =>
       if String.eqb p "/r" then Some (mkFileInfo true)
       else if String.eqb p "/r/d" then Some (mkFileInfo true)
       else if String.eqb p "/r/x.go" then Some (mkFileInfo false)
       else if String.eqb p "/r/n.txt" then Some (mkFileInfo false)
       else if String.eqb p "/r/min.js" then Some (mkFileInfo false)
       else None;
     Open := fun p =>
       if String.eqb p "/r/x.go" then Some testContent
       else if String.eqb p "/r/n.txt" then Some ("note" +:+ nl)
       else if String.eqb p "/r/min.js" then Some longLineContent
       else None |}.

(** The temporary trees that [TestCountLocs] and
    [TestProcessInputMultiplePatterns] build, side by side under [/tmp/t]. *)
Definition osTests : OS :=
  {| Getwd := Ok "/home/u";
     Clean := fun p => p;
     Join := joinSlash;
     Glob := fun _ pattern =>
       if String.eqb pattern "**/*.txt" then Ok ["file1.txt"; "subdir/file2.txt"]
       else if String.eqb pattern "**/*.rs" then Ok ["file1.rs"]
       else if String.eqb pattern "**/*.ts" then Ok ["file2.ts"]
       else Ok [];
     Stat := fun p =>
       if String.eqb p "/tmp/t" then Some (mkFileInfo true)
       else if String.eqb p "/tmp/t/subdir" then Some (mkFileInfo true)
       else if String.eqb p "/tmp/t/file1.txt" then Some (mkFileInfo false)
       else if String.eqb p "/tmp/t/subdir/file2.txt" then Some (mkFileInfo false)
       else if String.eqb p "/tmp/t/file3.log" then Some (mkFileInfo false)
       else if String.eqb p "/tmp/t/file1.rs" then Some (mkFileInfo false)
       else if String.eqb p "/tmp/t/file2.ts" then Some (mkFileInfo false)
       else None;
     Open := fun p =>
       if String.eqb p "/tmp/t/file1.txt"
       then Some ("Hello" +:+ nl +:+ "World" +:+ nl +:+ nl)
       else if String.eqb p "/tmp/t/subdir/file2.txt"
       then Some ("One" +:+ nl +:+ "Two" +:+ nl +:+ "Three" +:+ nl)
       else if String.eqb p "/tmp/t/file3.log" then Some ("Log line" +:+ nl)
       else if String.eqb p "/tmp/t/file1.rs"
       then Some ("fn main() {}" +:+ nl +:+ nl +:+ "// comment" +:+ nl)
       else if String.eqb p "/tmp/t/file2.ts"
       then Some ("console.log('Hello');" +:+ nl)
       else None |}.

(** A machine on which [/no/such/dir] does not exist: no path can be
    stat'ed or opened and no pattern matches anything. *)
Definition osEmpty : OS :=
  {| Getwd := Ok "/home/u";
     Clean := fun p => p;
     Join := joinSlash;
     Glob := fun _ _ => Ok [];
     Stat := fun _ => None;
     Open := fun _ => None |}.

(** A process whose working directory cannot be determined. *)
Definition osNoCwd : OS :=
  {| Getwd := Err "getwd: no such file or directory";
     Clean := fun p => p;
     Join := joinSlash;
     Glob := fun _ _ => Ok [];
     Stat := fun _ => None;
     Open := fun _ => None |}.

(** The breakdown as it would list the supplied patterns in input order. *)
Definition breakdownInInputOrder (os : OS) (root : string)
           (patterns : list string) : string :=
  breakdown (map (patternEntry os root) patterns).

(** ** Vocabulary of the further properties *)

(** A file made of the lines [ls], each ended by a line feed. *)
Fixpoint joinLines (ls : list string) : string :=
  match ls with
  | [] => EmptyString
  | l :: ls' => l +:+ nl +:+ joinLines ls'
  end.

(** A line that holds no line feed and fits in the scanner's buffer. *)
Definition lineOK (l : string) : Prop :=
  IndexByte l LF = None /\ (String.length l < MaxScanTokenSize)%nat.

(** All bytes are ASCII. *)
Fixpoint isAscii (s : string) : bool :=
  match s with
  | EmptyString => true
  | String c s' => (byteZ c <? Utf8.RuneSelf) && isAscii s'
  end.

(** Some byte is none of tab, line feed, vertical tab, form feed, carriage
    return and space. *)
Fixpoint hasNonSpace (s : string) : bool :=
  match s with
  | EmptyString => false
  | String c s' => negb (asciiSpace (byteZ c)) || hasNonSpace s'
  end.

(** The number of bytes that reading the file delivers, 0 for a file that
    cannot be opened. *)
Definition fileSize (os : OS) (filePath : string) : Z :=
  match Open os filePath with
  | Some content => Z.of_nat (String.length content)
  | None => 0
  end.

(** A schedule that reverses every order. *)
Definition revSched (d : string) : Sched :=
  {| goOrder := fun _ l => rev l; rangeSum := fun l => rev l;
     rangePrint := fun l => rev l; elapsed := d |}.

(** A schedule in which the goroutines finish in reverse order and the
    summing loop visits the map in reverse, while the print loop visits it
    as it comes. *)
Definition revGoSched (d : string) : Sched :=
  {| goOrder := fun _ l => rev l; rangeSum := fun l => rev l;
     rangePrint := fun l => l; elapsed := d |}.

(** [osDemo] after the files that no pattern of the examples matches
    were rewritten and the bundle was made unreadable. *)
Definition osDemoTouched : OS :=
  {| Getwd := Getwd osDemo;
     Clean := Clean osDemo;
     Join := Join osDemo;
     Glob := Glob osDemo;
     Stat := Stat osDemo;
     Open := fun p =>
       if String.eqb p "/r/min.js" then None
       else if String.eqb p "/r/other.c" then Some ("int x;" +:+ nl)
       else Open osDemo p |}.

(** The head of a bundle: three lines, one of them empty. *)
Definition bundleHead : string := joinLines ["// bundle"; ""; "var a;"].

(** The rest of the bundle: a line of 65536 bytes and one more line. *)
Definition bundleTail : string :=
  repeatByte MaxScanTokenSize "x" +:+ nl +:+ "var z;" +:+ nl.

(** A tree [/r] with a bundle, its two parts as files of their own, and
    two text files that differ by their final line feed. *)
Definition osBundle : OS :=
  {| Getwd := Ok "/home/u";
     Clean := fun p => p;
     Join := joinSlash;
     Glob := fun _ pattern =>
       if String.eqb pattern "*.js" then Ok ["app.js"; "head.js"; "tail.js"]
       else if String.eqb pattern "*.txt" then Ok ["a.txt"; "b.txt"]
       else Ok [];
     Stat := fun p =>
       if String.eqb p "/r" then Some (mkFileInfo true)
       else if String.eqb p "/r/app.js" then Some (mkFileInfo false)
       else if String.eqb p "/r/head.js" then Some (mkFileInfo false)
       else if String.eqb p "/r/tail.js" then Some (mkFileInfo false)
       else if String.eqb p "/r/a.txt" then Some (mkFileInfo false)
       else if String.eqb p "/r/b.txt" then Some (mkFileInfo false)
       else None;
     Open := fun p =>
       if String.eqb p "/r/app.js" then Some (bundleHead +:+ bundleTail)
       else if String.eqb p "/r/head.js" then Some bundleHead
       else if String.eqb p "/r/tail.js" then Some bundleTail
       else if String.eqb p "/r/a.txt" then Some (joinLines ["a"] +:+ "b")
       else if String.eqb p "/r/b.txt" then Some (joinLines ["a"] +:+ "b" +:+ nl)
       else None |}.

(** The tree of [TestCountLocs] seen through a glob matcher that lists
    [subdir/file2.txt] twice for the pattern [**/**/*.txt]. *)
Definition osDup : OS :=
  {| Getwd := Getwd osTests;
     Clean := Clean osTests;
     Join := Join osTests;
     Glob := fun root pattern =>
       if String.eqb pattern "**/**/*.txt"
       then Ok ["file1.txt"; "subdir/file2.txt"; "subdir/file2.txt"]
       else Glob osTests root pattern;
     Stat := Stat osTests;
     Open := Open osTests |}.


(** * Properties *)

(** ** Arithmetic on [int] *)

Lemma wrap64_inRange z : inRange z -> wrap64 z = z.
Proof.
  unfold inRange, wrap64, minInt64, maxInt64. intros H.
  rewrite Z.mod_small; lia.
Qed.

Lemma wrap64_range z : inRange (wrap64 z).
Proof.
  unfold inRange, wrap64, minInt64, maxInt64.
  pose proof (Z.mod_pos_bound (z + 2 ^ 63) (2 ^ 64)). lia.
Qed.

Lemma wrap64_add_l a b : wrap64 (wrap64 a + b) = wrap64 (a + b).
Proof.
  unfold wrap64.
  replace ((a + 2 ^ 63) mod 2 ^ 64 - 2 ^ 63 + b + 2 ^ 63)
    with ((a + 2 ^ 63) mod 2 ^ 64 + b) by lia.
  rewrite Zplus_mod_idemp_l. f_equal. f_equal. lia.
Qed.

Lemma wrap64_add_r a b : wrap64 (a + wrap64 b) = wrap64 (a + b).
Proof. rewrite (Z.add_comm a), wrap64_add_l. f_equal. lia. Qed.

Lemma sumZ_Permutation l1 l2 : l1 ≡ₚ l2 -> sumZ l1 = sumZ l2.
Proof. induction 1; simpl; lia. Qed.

(** A loop that accumulates with wrapping additions holds the wrapped sum. *)
Lemma fold_add64 {A} (f : A -> Z) (l : list A) (acc : Z) :
  fold_left (fun t x => add64 t (f x)) l (wrap64 acc)
  = wrap64 (acc + sumZ (map f l)).
Proof.
  revert acc. induction l as [|x l IH]; intros acc; simpl.
  - f_equal. lia.
  - unfold add64 at 2. rewrite wrap64_add_l, IH. f_equal. lia.
Qed.

Lemma fold_add64_0 {A} (f : A -> Z) (l : list A) :
  fold_left (fun t x => add64 t (f x)) l 0 = wrap64 (sumZ (map f l)).
Proof. exact (fold_add64 f l 0). Qed.


(** ** Strings *)

Lemma append_nil_l (b : string) : EmptyString +:+ b = b.
Proof. reflexivity. Qed.

Lemma append_cons (x : ascii) (a b : string) :
  String x a +:+ b = String x (a +:+ b).
Proof. reflexivity. Qed.

Lemma append_assoc (a b c : string) : (a +:+ b) +:+ c = a +:+ (b +:+ c).
Proof.
  induction a as [|x a IH]; [done|].
  rewrite !append_cons. by rewrite IH.
Qed.

Lemma append_empty_r (a : string) : a +:+ EmptyString = a.
Proof.
  induction a as [|x a IH]; [done|].
  rewrite append_cons. by rewrite IH.
Qed.

Lemma prefix_append (a b : string) : String.prefix a (a +:+ b) = true.
Proof.
  induction a as [|x a IH]; [by destruct b|].
  rewrite append_cons. simpl.
  destruct (ascii_dec x x); [done | congruence].
Qed.

(** ** [countLocs]: the map of results and the messages *)

Section CountLocs.
Context (os : OS) (sc : Sched) (root : string).
Hypothesis Hsc : sched_ok sc.

Lemma addCounts_sum order :
  addCounts os order = wrap64 (sumZ (map (countLines os) order)).
Proof. apply fold_add64_0. Qed.

Lemma addCounts_Permutation order files :
  order ≡ₚ files -> addCounts os order = addCounts os files.
Proof.
  intros Hp. rewrite !addCounts_sum. f_equal.
  apply sumZ_Permutation. by apply Permutation_map.
Qed.

Lemma addCounts_goOrder n pattern matches :
  Glob os root pattern = Ok matches ->
  addCounts os (goOrder sc n (spawned os root matches)) = patternTotal os root pattern.
Proof.
  intros HG. destruct Hsc as (Hgo & _ & _).
  rewrite (addCounts_Permutation _ _ (Hgo n _)), addCounts_sum.
  unfold patternTotal, sumOfCounts, matchedFiles. by rewrite HG.
Qed.

Lemma countLocs_loop_lookup patterns n results err q :
  (countLocs_loop os sc root n patterns results err).1 !! q =
  if decide (q ∈ patterns /\ globOk os root q = true)
  then Some (patternTotal os root q) else results !! q.
Proof.
  revert n results err.
  induction patterns as [|p rest IH]; intros n results err;
    cbn [countLocs_loop fst].
  - rewrite decide_False; [done|]. intros [H _]. by apply elem_of_nil in H.
  - destruct (Glob os root p) as [matches|e] eqn:HG; rewrite IH.
    + assert (Hok : globOk os root p = true) by (unfold globOk; by rewrite HG).
      destruct (decide (q ∈ rest /\ globOk os root q = true)) as [[H1 H2]|Hn].
      { rewrite decide_True; [done | split; [by right | done]]. }
      destruct (decide (q = p)) as [->|Hne].
      * rewrite decide_True by (split; [left | done]).
        rewrite lookup_insert_eq. f_equal. by apply addCounts_goOrder.
      * rewrite lookup_insert_ne by done.
        rewrite decide_False; [done|]. intros [H1 H2]. apply Hn.
        apply elem_of_cons in H1 as [?|?]; done.
    + assert (Hko : globOk os root p = false) by (unfold globOk; by rewrite HG).
      destruct (decide (q ∈ rest /\ globOk os root q = true)) as [[H1 H2]|Hn].
      { rewrite decide_True; [done | split; [by right | done]]. }
      rewrite decide_False; [done|]. intros [H1 H2]. apply Hn.
      apply elem_of_cons in H1 as [->|?]; [congruence | done].
Qed.

Lemma countLocs_loop_stderr patterns n results err :
  (countLocs_loop os sc root n patterns results err).2
  = err +:+ patternErrors os root patterns.
Proof.
  revert n results err.
  induction patterns as [|p rest IH]; intros n results err; simpl.
  - by rewrite append_empty_r.
  - destruct (Glob os root p) as [matches|e]; rewrite IH; [done|].
    unfold patternError. by rewrite !append_assoc.
Qed.

(** The map holds the total of every well-formed supplied pattern and
    nothing else. *)
Lemma countLocs_lookup patterns q :
  (countLocs os sc root patterns).1 !! q =
  if decide (q ∈ patterns /\ globOk os root q = true)
  then Some (patternTotal os root q) else None.
Proof. unfold countLocs. by rewrite countLocs_loop_lookup, lookup_empty. Qed.

Lemma countLocs_stderr patterns :
  (countLocs os sc root patterns).2 = patternErrors os root patterns.
Proof. unfold countLocs. by rewrite countLocs_loop_stderr. Qed.

Lemma elem_of_countedPatterns patterns q :
  q ∈ countedPatterns os root patterns <-> q ∈ patterns /\ globOk os root q = true.
Proof.
  unfold countedPatterns. rewrite elem_of_remove_dups, list_elem_of_filter. tauto.
Qed.

(** The entries of the map are those of the counted patterns. *)
Lemma countLocs_entries patterns :
  map_to_list (countLocs os sc root patterns).1
  ≡ₚ map (patternEntry os root) (countedPatterns os root patterns).
Proof.
  apply NoDup_Permutation.
  - apply NoDup_map_to_list.
  - apply NoDup_fmap_2.
    + intros p1 p2 Heq. by inversion Heq.
    + apply NoDup_remove_dups.
  - intros [q c]. rewrite elem_of_map_to_list, countLocs_lookup.
    change (map (patternEntry os root)) with (fmap (M:=list) (patternEntry os root)).
    rewrite list_elem_of_fmap. split.
    + case_decide as H; [|done]. intros [= <-].
      exists q. split; [done|]. by apply elem_of_countedPatterns.
    + intros (p & Heq & Hin). inversion Heq; subst.
      apply elem_of_countedPatterns in Hin. by rewrite decide_True.
Qed.

End CountLocs.

Lemma sumCounts_sum entries : sumCounts entries = wrap64 (sumZ (map snd entries)).
Proof. apply (fold_add64_0 snd). Qed.

Lemma sumCounts_Permutation e1 e2 : e1 ≡ₚ e2 -> sumCounts e1 = sumCounts e2.
Proof.
  intros Hp. rewrite !sumCounts_sum. f_equal.
  apply sumZ_Permutation. by apply Permutation_map.
Qed.


(** ** [processInput] once the directory is resolved *)

Lemma processInput_resolved os sc dir absDir patterns :
  sched_ok sc ->
  Abs os dir = Ok absDir ->
  let results := (countLocs os sc absDir patterns).1 in
  rangePrint sc (map_to_list results)
    ≡ₚ map (patternEntry os absDir) (countedPatterns os absDir patterns) /\
  processInput os sc dir patterns =
    {| stdout :=
         (if (1 <? length patterns)%nat
          then breakdown (rangePrint sc (map_to_list results))
          else EmptyString)
         +:+ totalSection (grandTotal os absDir patterns) (elapsed sc);
       stderr := patternErrors os absDir patterns;
       exit := None |}.
Proof.
  intros Hsc HA results. pose proof Hsc as (_ & Hsum & Hprint).
  split.
  - rewrite Hprint. by apply countLocs_entries.
  - unfold processInput. rewrite HA.
    pose proof (countLocs_stderr os sc absDir patterns) as Herr.
    pose proof (countLocs_entries os sc absDir Hsc patterns) as Hent.
    subst results. destruct (countLocs os sc absDir patterns) as [res err].
    simpl in *. subst err. f_equal. f_equal. f_equal.
    rewrite (sumCounts_Permutation _ _ (Hsum _)), (sumCounts_Permutation _ _ Hent).
    rewrite sumCounts_sum, map_map. done.
Qed.

Lemma seqSched_ok d : sched_ok (seqSched d).
Proof. repeat split; intros; reflexivity. Qed.

Lemma NoDup_countedPatterns os root patterns :
  NoDup (countedPatterns os root patterns).
Proof. apply NoDup_remove_dups. Qed.

Lemma patternErrors_contains os root patterns p e :
  p ∈ patterns -> Glob os root p = Err e ->
  exists before after,
    patternErrors os root patterns = before +:+ patternError p e +:+ after.
Proof.
  intros Hin HG. induction patterns as [|q rest IH]; [by apply elem_of_nil in Hin|].
  apply elem_of_cons in Hin as [<-|Hin]; simpl.
  - rewrite HG. by exists EmptyString, (patternErrors os root rest).
  - destruct (IH Hin) as (before & after & ->).
    destruct (Glob os root q) as [matches|e'].
    + by exists before, after.
    + exists (patternError q e' +:+ before), after. by rewrite append_assoc.
Qed.

Lemma prefix_header_totalSection total d :
  String.prefix breakdownHeader (totalSection total d) = false.
Proof. reflexivity. Qed.

Lemma prefix_header_breakdown entries rest :
  String.prefix breakdownHeader (breakdown entries +:+ rest) = true.
Proof. unfold breakdown. rewrite append_assoc. apply prefix_append. Qed.

(** ** The command line *)

Lemma elem_of_flags arg :
  arg ∈ flags <-> isHelpFlag arg || isVersionFlag arg = true.
Proof.
  unfold flags, isHelpFlag, isVersionFlag.
  rewrite !elem_of_cons, elem_of_nil, !orb_true_iff, !String.eqb_eq. tauto.
Qed.

(** C8. An invocation without argument, or with one argument that is none
    of [-h], [--help], [-v], [--version], writes the one-line usage message
    to standard error, nothing to standard output, and exits with status
    1; an invocation whose only argument is one of these flags writes the
    help text or the version to standard output and exits with status 0. *)
Theorem main_usage_and_flags (os : OS) (sc : Sched) (args : list string) :
  ((length args <= 1)%nat \/
   ((length args = 2)%nat /\ nth 1 args EmptyString ∉ flags) ->
   main os sc args =
     {| stdout := EmptyString;
        stderr := "Usage: count_locs <directory> <glob-patterns>..." +:+ nl;
        exit := Some 1 |} /\
   exitStatus (main os sc args) = 1) /\
  ((length args = 2)%nat /\ nth 1 args EmptyString ∈ flags ->
   (main os sc args = printHelp \/ main os sc args = printVersion) /\
   stderr (main os sc args) = EmptyString /\
   exitStatus (main os sc args) = 0).
Proof.
  split.
  - intros [Hlen | [Hlen Hflag]].
    + unfold main. destruct args as [|prog [|arg rest]]; simpl in Hlen; try lia; done.
    + destruct args as [|prog [|arg [|? rest]]]; simpl in Hlen; try lia.
      simpl in Hflag. rewrite elem_of_flags in Hflag.
      apply not_true_is_false, orb_false_elim in Hflag as [Hh Hv].
      unfold main. simpl. by rewrite Hh, Hv.
  - intros [Hlen Hflag].
    destruct args as [|prog [|arg [|? rest]]]; simpl in Hlen; try lia.
    simpl in Hflag. rewrite elem_of_flags in Hflag.
    unfold main. simpl.
    destruct (isHelpFlag arg); [by split; [left|]|].
    simpl in Hflag. rewrite Hflag. by split; [right|].
Qed.

Lemma main_usage_and_flags_witness :
  ((length ["count_locs"; "src"] = 2)%nat /\
   nth 1 ["count_locs"; "src"] EmptyString ∉ flags) /\
  ((length ["count_locs"; "--version"] = 2)%nat /\
   nth 1 ["count_locs"; "--version"] EmptyString ∈ flags) /\
  exitStatus (main osDemo (seqSched "1ms") ["count_locs"; "src"]) = 1 /\
  exitStatus (main osDemo (seqSched "1ms") ["count_locs"; "--version"]) = 0.
Proof.
  assert (H1 : (length ["count_locs"; "src"] = 2)%nat /\
               nth 1 ["count_locs"; "src"] EmptyString ∉ flags).
  { split; [reflexivity|]. rewrite elem_of_flags. simpl. discriminate. }
  assert (H2 : (length ["count_locs"; "--version"] = 2)%nat /\
               nth 1 ["count_locs"; "--version"] EmptyString ∈ flags).
  { split; [reflexivity|]. rewrite elem_of_flags. reflexivity. }
  split; [exact H1|]. split; [exact H2|]. split.
  - exact (proj2 (proj1 (main_usage_and_flags osDemo (seqSched "1ms")
                           ["count_locs"; "src"]) (or_intror H1))).
  - exact (proj2 (proj2 (proj2 (main_usage_and_flags osDemo (seqSched "1ms")
                                  ["count_locs"; "--version"]) H2))).
Defined.

Lemma processInput_stdout_start os sc dir patterns :
  stdout (processInput os sc dir patterns) = EmptyString \/
  String.prefix "Total:" (stdout (processInput os sc dir patterns)) = true \/
  String.prefix breakdownHeader (stdout (processInput os sc dir patterns)) = true.
Proof.
  unfold processInput. destruct (Abs os dir) as [absDir|e]; [|by left].
  destruct (countLocs os sc absDir patterns) as [results err]. cbn [stdout].
  right. destruct (1 <? length patterns)%nat.
  - right. apply prefix_header_breakdown.
  - left. rewrite append_nil_l. unfold totalSection. apply prefix_append.
Qed.

(** C10. With two or more arguments the first is the directory and all
    the others are glob patterns, whatever their spelling: [main] hands
    them to [processInput] without looking for flags, and what it prints is
    neither the help text nor the version. *)
Theorem main_positional_arguments (os : OS) (sc : Sched)
        (prog dir pattern : string) (rest : list string) :
  main os sc (prog :: dir :: pattern :: rest)
    = processInput os sc dir (pattern :: rest) /\
  main os sc (prog :: dir :: pattern :: rest) <> printHelp /\
  main os sc (prog :: dir :: pattern :: rest) <> printVersion.
Proof.
  assert (Hmain : main os sc (prog :: dir :: pattern :: rest)
                  = processInput os sc dir (pattern :: rest)) by reflexivity.
  split; [exact Hmain|]. rewrite Hmain.
  pose proof (processInput_stdout_start os sc dir (pattern :: rest)) as Hstart.
  split; intros Heq; rewrite Heq in Hstart; vm_compute in Hstart;
    destruct Hstart as [H|[H|H]]; discriminate.
Qed.

(** Flags in second and third position are a directory and a pattern. *)
Lemma main_flags_as_positional_arguments :
  main osDemo (seqSched "1ms") ["count_locs"; "-h"; "--version"]
  = {| stdout := "Total:" +:+ tab +:+ "0 lines of code" +:+ nl +:+ nl +:+
                 "Elapsed time: 1ms" +:+ nl;
       stderr := EmptyString;
       exit := None |}.
Proof. vm_compute. reflexivity. Qed.

(** ** Resolution of the directory *)

(** C2 (as amended).  [processInput] aborts exactly when [filepath.Abs]
    fails, that is when the path is relative and the working directory
    cannot be determined: it then writes [Failed to resolve directory:] and
    the error to standard error, prints no report and exits with status 1.
    Whether the directory exists plays no part: whenever the path resolves,
    the run does not exit and prints the report. *)
Theorem processInput_abort_iff_unresolved (os : OS) (sc : Sched) (dir : string)
        (patterns : list string) :
  (forall e, Abs os dir = Err e <-> IsAbs dir = false /\ Getwd os = Err e) /\
  match Abs os dir with
  | Err e =>
      processInput os sc dir patterns =
        {| stdout := EmptyString;
           stderr := "Failed to resolve directory: " +:+ e +:+ nl;
           exit := Some 1 |}
  | Ok absDir =>
      exit (processInput os sc dir patterns) = None /\
      exists section total,
        stdout (processInput os sc dir patterns)
        = section +:+ totalSection total (elapsed sc)
  end.
Proof.
  split.
  - intros e. unfold Abs. destruct (IsAbs dir), (Getwd os); split;
      try (intros [? ?]); try intros ?; try split; congruence.
  - unfold processInput. destruct (Abs os dir) as [absDir|e]; [|done].
    destruct (countLocs os sc absDir patterns) as [results err].
    split; [done|]. simpl. eauto.
Qed.

(** C2, counterexample.  [/no/such/dir] does not exist, and the run prints
    a report and does not exit with an error. *)
Lemma missing_directory_is_counted :
  dirExists osEmpty "/no/such/dir" = false /\
  sched_ok (seqSched "1ms") /\
  processInput osEmpty (seqSched "1ms") "/no/such/dir" ["*.go"] =
    {| stdout := "Total:" +:+ tab +:+ "0 lines of code" +:+ nl +:+ nl +:+
                 "Elapsed time: 1ms" +:+ nl;
       stderr := EmptyString;
       exit := None |} /\
  exitStatus (processInput osEmpty (seqSched "1ms") "/no/such/dir" ["*.go"]) = 0.
Proof.
  split; [reflexivity|]. split; [apply seqSched_ok|].
  split; vm_compute; reflexivity.
Qed.

(** ** The report *)

(** C1, counterexample.  Three runs with two patterns each whose breakdown
    is not the list of the supplied patterns in input order: the map
    [results] is visited in an order of its own ([*.go] comes before
    [*.txt], which was given first), a pattern given twice has one entry,
    and a malformed pattern has none. *)
Lemma breakdown_not_in_input_order :
  sched_ok (seqSched "1ms") /\
  Abs osDemo "/r" = Ok "/r" /\
  (stdout (processInput osDemo (seqSched "1ms") "/r" ["*.txt"; "*.go"]) =
     "Breakdown of Lines of Code by Glob:" +:+ nl +:+ nl +:+
     "-  *.go: 3" +:+ nl +:+
     "-  *.txt: 1" +:+ nl +:+ nl +:+
     "Total:" +:+ tab +:+ "4 lines of code" +:+ nl +:+ nl +:+
     "Elapsed time: 1ms" +:+ nl /\
   String.prefix (breakdownInInputOrder osDemo "/r" ["*.txt"; "*.go"])
     (stdout (processInput osDemo (seqSched "1ms") "/r" ["*.txt"; "*.go"]))
   = false) /\
  (stdout (processInput osDemo (seqSched "1ms") "/r" ["*.go"; "*.go"]) =
     "Breakdown of Lines of Code by Glob:" +:+ nl +:+ nl +:+
     "-  *.go: 3" +:+ nl +:+ nl +:+
     "Total:" +:+ tab +:+ "3 lines of code" +:+ nl +:+ nl +:+
     "Elapsed time: 1ms" +:+ nl /\
   String.prefix (breakdownInInputOrder osDemo "/r" ["*.go"; "*.go"])
     (stdout (processInput osDemo (seqSched "1ms") "/r" ["*.go"; "*.go"]))
   = false) /\
  (stdout (processInput osDemo (seqSched "1ms") "/r" ["*.go"; "["]) =
     "Breakdown of Lines of Code by Glob:" +:+ nl +:+ nl +:+
     "-  *.go: 3" +:+ nl +:+ nl +:+
     "Total:" +:+ tab +:+ "3 lines of code" +:+ nl +:+ nl +:+
     "Elapsed time: 1ms" +:+ nl /\
   String.prefix (breakdownInInputOrder osDemo "/r" ["*.go"; "["])
     (stdout (processInput osDemo (seqSched "1ms") "/r" ["*.go"; "["]))
   = false).
Proof.
  split; [apply seqSched_ok|]. split; [reflexivity|].
  repeat split; vm_compute; reflexivity.
Qed.

(** C1 (as amended).  In a run with more than one supplied pattern the
    breakdown section has one line [-  <pattern>: <count>] for each
    distinct supplied pattern whose expansion succeeds, with the total of
    that pattern, and no other line; the lines come in the order in which
    the map is visited. *)
Theorem breakdown_lists_counted_patterns (os : OS) (sc : Sched)
        (dir absDir : string) (patterns : list string) :
  sched_ok sc ->
  Abs os dir = Ok absDir ->
  (1 < length patterns)%nat ->
  NoDup (countedPatterns os absDir patterns) /\
  (forall p, p ∈ countedPatterns os absDir patterns
             <-> p ∈ patterns /\ globOk os absDir p = true) /\
  exists entries,
    entries ≡ₚ map (fun p => (p, patternTotal os absDir p))
                   (countedPatterns os absDir patterns) /\
    stdout (processInput os sc dir patterns) =
      "Breakdown of Lines of Code by Glob:" +:+ nl +:+ nl +:+
      String.concat EmptyString
        (map (fun e : string * Z => "-  " +:+ e.1 +:+ ": " +:+ pretty e.2 +:+ nl)
             entries) +:+ nl +:+
      totalSection (grandTotal os absDir patterns) (elapsed sc).
Proof.
  intros Hsc HA Hlen.
  split; [apply NoDup_countedPatterns|].
  split; [intros p; apply elem_of_countedPatterns|].
  destruct (processInput_resolved os sc dir absDir patterns Hsc HA) as [Hent ->].
  apply Nat.ltb_lt in Hlen. rewrite Hlen.
  eexists. split; [exact Hent|].
  cbn [stdout]. unfold breakdown, breakdownHeader, breakdownLine.
  by rewrite !append_assoc.
Qed.

Lemma breakdown_lists_counted_patterns_witness :
  sched_ok (seqSched "1ms") /\
  Abs osDemo "/r" = Ok "/r" /\
  (1 < length ["*.go"; "["; "*.txt"; "*.go"])%nat /\
  exists entries,
    entries ≡ₚ map (fun p => (p, patternTotal osDemo "/r" p))
                   (countedPatterns osDemo "/r" ["*.go"; "["; "*.txt"; "*.go"]) /\
    stdout (processInput osDemo (seqSched "1ms") "/r"
              ["*.go"; "["; "*.txt"; "*.go"]) =
      "Breakdown of Lines of Code by Glob:" +:+ nl +:+ nl +:+
      String.concat EmptyString
        (map (fun e : string * Z => "-  " +:+ e.1 +:+ ": " +:+ pretty e.2 +:+ nl)
             entries) +:+ nl +:+
      totalSection (grandTotal osDemo "/r" ["*.go"; "["; "*.txt"; "*.go"])
                   (elapsed (seqSched "1ms")).
Proof.
  split; [apply seqSched_ok|]. split; [reflexivity|].
  split; [simpl; lia|].
  apply (breakdown_lists_counted_patterns osDemo (seqSched "1ms") "/r" "/r"
           ["*.go"; "["; "*.txt"; "*.go"]);
    [apply seqSched_ok | reflexivity | simpl; lia].
Defined.

(** C5.  When the expansion of a supplied pattern fails, [Error processing
    pattern <pattern>: <error>] is written to standard error; the run goes
    on: it does not exit, every well-formed supplied pattern gets its
    total and the report is printed; the malformed pattern has no entry in
    the map of results, hence no line in the breakdown and no share in the
    grand total, which is the sum over the entries printed. *)
Theorem malformed_pattern_is_skipped (os : OS) (sc : Sched)
        (dir absDir : string) (patterns : list string) (p e : string) :
  sched_ok sc ->
  Abs os dir = Ok absDir ->
  p ∈ patterns ->
  Glob os absDir p = Err e ->
  (exists before after,
     stderr (processInput os sc dir patterns) =
       before +:+ "Error processing pattern " +:+ p +:+ ": " +:+ e +:+ nl
       +:+ after) /\
  exit (processInput os sc dir patterns) = None /\
  (forall q, q ∈ patterns -> globOk os absDir q = true ->
             (countLocs os sc absDir patterns).1 !! q
             = Some (patternTotal os absDir q)) /\
  (countLocs os sc absDir patterns).1 !! p = None /\
  exists entries,
    entries ≡ₚ map_to_list (countLocs os sc absDir patterns).1 /\
    (p ∉ map fst entries) /\
    stdout (processInput os sc dir patterns) =
      (if (1 <? length patterns)%nat then breakdown entries else EmptyString)
      +:+ totalSection (wrap64 (sumZ (map snd entries))) (elapsed sc).
Proof.
  intros Hsc HA Hin HG.
  assert (Hko : globOk os absDir p = false) by (unfold globOk; by rewrite HG).
  assert (Hnone : (countLocs os sc absDir patterns).1 !! p = None).
  { rewrite countLocs_lookup by done. rewrite decide_False; [done|].
    intros [_ ?]; congruence. }
  destruct (processInput_resolved os sc dir absDir patterns Hsc HA) as [Hent ->].
  cbn [stdout stderr exit].
  split; [|split; [done|split; [|split; [done|]]]].
  - destruct (patternErrors_contains os absDir patterns p e Hin HG)
      as (before & after & ->).
    exists before, after. unfold patternError. by rewrite !append_assoc.
  - intros q Hq Hok. rewrite countLocs_lookup by done.
    by rewrite decide_True.
  - destruct Hsc as (_ & _ & Hprint).
    exists (rangePrint sc (map_to_list (countLocs os sc absDir patterns).1)).
    split; [apply Hprint|]. split.
    + intros Hp. apply list_elem_of_fmap in Hp as ([q c] & -> & Hqc).
      rewrite Hprint in Hqc. apply elem_of_map_to_list in Hqc.
      simpl in Hnone. congruence.
    + do 2 f_equal. unfold grandTotal. f_equal.
      rewrite (sumZ_Permutation _ _ (Permutation_map snd Hent)).
      by rewrite map_map.
Qed.

Lemma malformed_pattern_is_skipped_witness :
  sched_ok (seqSched "1ms") /\
  Abs osDemo "/r" = Ok "/r" /\
  "[" ∈ ["*.go"; "["; "*.txt"] /\
  Glob osDemo "/r" "[" = Err "syntax error in pattern" /\
  exit (processInput osDemo (seqSched "1ms") "/r" ["*.go"; "["; "*.txt"]) = None /\
  (countLocs osDemo (seqSched "1ms") "/r" ["*.go"; "["; "*.txt"]).1 !! "[" = None.
Proof.
  assert (Hin : "[" ∈ ["*.go"; "["; "*.txt"]) by (right; left).
  split; [apply seqSched_ok|]. split; [reflexivity|].
  split; [exact Hin|]. split; [reflexivity|].
  destruct (malformed_pattern_is_skipped osDemo (seqSched "1ms") "/r" "/r"
              ["*.go"; "["; "*.txt"] "[" "syntax error in pattern"
              (seqSched_ok "1ms") eq_refl Hin eq_refl)
    as (_ & Hexit & _ & Hnone & _).
  split; [exact Hexit | exact Hnone].
Defined.

(** C6.  Whenever the directory resolves, the last thing printed is the
    line [Total:<tab><totalLines> lines of code], a blank line and the
    line [Elapsed time: <duration>], where [totalLines] is the sum of the
    per-pattern totals held by the map of results (the sum fits in an
    [int]). *)
Theorem grand_total_is_sum_of_pattern_totals (os : OS) (sc : Sched)
        (dir absDir : string) (patterns : list string) :
  sched_ok sc ->
  Abs os dir = Ok absDir ->
  inRange (sumZ (map snd (map_to_list (countLocs os sc absDir patterns).1))) ->
  exists section,
    stdout (processInput os sc dir patterns) =
      section +:+
      "Total:" +:+ tab +:+
      pretty (sumZ (map snd (map_to_list (countLocs os sc absDir patterns).1)))
      +:+ " lines of code" +:+ nl +:+ nl +:+
      "Elapsed time: " +:+ elapsed sc +:+ nl.
Proof.
  intros Hsc HA Hrange.
  destruct (processInput_resolved os sc dir absDir patterns Hsc HA) as [Hent ->].
  cbn [stdout]. eexists. f_equal. unfold totalSection. do 2 f_equal.
  unfold grandTotal.
  pose proof (countLocs_entries os sc absDir Hsc patterns) as Hres.
  rewrite <- (wrap64_inRange _ Hrange). f_equal.
  rewrite (sumZ_Permutation _ _ (Permutation_map snd Hres)).
  by rewrite map_map.
Qed.

Lemma grand_total_is_sum_of_pattern_totals_witness :
  sched_ok (seqSched "1ms") /\
  Abs osDemo "/r" = Ok "/r" /\
  inRange (sumZ (map snd (map_to_list
             (countLocs osDemo (seqSched "1ms") "/r" ["*.go"; "*"]).1))) /\
  exists section,
    stdout (processInput osDemo (seqSched "1ms") "/r" ["*.go"; "*"]) =
      section +:+
      "Total:" +:+ tab +:+
      pretty (sumZ (map snd (map_to_list
                (countLocs osDemo (seqSched "1ms") "/r" ["*.go"; "*"]).1)))
      +:+ " lines of code" +:+ nl +:+ nl +:+
      "Elapsed time: " +:+ elapsed (seqSched "1ms") +:+ nl.
Proof.
  assert (Hr : inRange (sumZ (map snd (map_to_list
             (countLocs osDemo (seqSched "1ms") "/r" ["*.go"; "*"]).1)))).
  { vm_compute. split; discriminate. }
  split; [apply seqSched_ok|]. split; [reflexivity|]. split; [exact Hr|].
  exact (grand_total_is_sum_of_pattern_totals osDemo (seqSched "1ms") "/r" "/r"
           ["*.go"; "*"] (seqSched_ok "1ms") eq_refl Hr).
Defined.

(** C7.  Whenever the directory resolves, the output starts with the
    header of the breakdown if and only if more than one pattern was
    supplied.  With more than one pattern the header, a blank line, one
    line [-  <pattern>: <count>] per entry of the map of results and a
    blank line come before the total; with one pattern (or none) the output
    is the total and the elapsed time alone. *)
Theorem breakdown_iff_several_patterns (os : OS) (sc : Sched)
        (dir absDir : string) (patterns : list string) :
  sched_ok sc ->
  Abs os dir = Ok absDir ->
  (String.prefix "Breakdown of Lines of Code by Glob:"
     (stdout (processInput os sc dir patterns)) = true
   <-> (1 < length patterns)%nat) /\
  ((1 < length patterns)%nat ->
   exists entries,
     entries ≡ₚ map_to_list (countLocs os sc absDir patterns).1 /\
     stdout (processInput os sc dir patterns) =
       "Breakdown of Lines of Code by Glob:" +:+ nl +:+ nl +:+
       String.concat EmptyString
         (map (fun e : string * Z =>
                 "-  " +:+ e.1 +:+ ": " +:+ pretty e.2 +:+ nl) entries)
       +:+ nl +:+
       "Total:" +:+ tab +:+ pretty (grandTotal os absDir patterns) +:+
       " lines of code" +:+ nl +:+ nl +:+
       "Elapsed time: " +:+ elapsed sc +:+ nl) /\
  ((length patterns <= 1)%nat ->
   stdout (processInput os sc dir patterns) =
     "Total:" +:+ tab +:+ pretty (grandTotal os absDir patterns) +:+
     " lines of code" +:+ nl +:+ nl +:+
     "Elapsed time: " +:+ elapsed sc +:+ nl).
Proof.
  intros Hsc HA.
  destruct (processInput_resolved os sc dir absDir patterns Hsc HA) as [Hent ->].
  cbn [stdout]. destruct (Nat.ltb_spec 1 (length patterns)) as [Hlt|Hle].
  - split; [|split].
    + split; [done|]. intros _. apply prefix_header_breakdown.
    + intros _. destruct Hsc as (_ & _ & Hprint). eexists.
      split; [apply Hprint|].
      unfold breakdown, breakdownHeader, breakdownLine, totalSection.
      by rewrite !append_assoc.
    + lia.
  - split; [|split].
    + rewrite append_nil_l.
      change "Breakdown of Lines of Code by Glob:" with breakdownHeader.
      rewrite prefix_header_totalSection. split; [done | lia].
    + lia.
    + intros _. by rewrite append_nil_l.
Qed.

Lemma breakdown_iff_several_patterns_witness :
  sched_ok (seqSched "1ms") /\
  Abs osDemo "/r" = Ok "/r" /\
  ((length ["*.go"] <= 1)%nat /\
   stdout (processInput osDemo (seqSched "1ms") "/r" ["*.go"]) =
     "Total:" +:+ tab +:+ pretty (grandTotal osDemo "/r" ["*.go"]) +:+
     " lines of code" +:+ nl +:+ nl +:+
     "Elapsed time: " +:+ elapsed (seqSched "1ms") +:+ nl) /\
  ((1 < length ["*.go"; "*.txt"])%nat /\
   exists entries,
     entries ≡ₚ map_to_list
                  (countLocs osDemo (seqSched "1ms") "/r" ["*.go"; "*.txt"]).1 /\
     stdout (processInput osDemo (seqSched "1ms") "/r" ["*.go"; "*.txt"]) =
       "Breakdown of Lines of Code by Glob:" +:+ nl +:+ nl +:+
       String.concat EmptyString
         (map (fun e : string * Z =>
                 "-  " +:+ e.1 +:+ ": " +:+ pretty e.2 +:+ nl) entries)
       +:+ nl +:+
       "Total:" +:+ tab +:+ pretty (grandTotal osDemo "/r" ["*.go"; "*.txt"]) +:+
       " lines of code" +:+ nl +:+ nl +:+
       "Elapsed time: " +:+ elapsed (seqSched "1ms") +:+ nl).
Proof.
  assert (Hone : (length ["*.go"] <= 1)%nat) by (simpl; lia).
  assert (Htwo : (1 < length ["*.go"; "*.txt"])%nat) by (simpl; lia).
  split; [apply seqSched_ok|]. split; [reflexivity|]. split.
  - split; [exact Hone|].
    exact (proj2 (proj2 (breakdown_iff_several_patterns osDemo (seqSched "1ms")
                           "/r" "/r" ["*.go"] (seqSched_ok "1ms") eq_refl)) Hone).
  - split; [exact Htwo|].
    exact (proj1 (proj2 (breakdown_iff_several_patterns osDemo (seqSched "1ms")
                           "/r" "/r" ["*.go"; "*.txt"] (seqSched_ok "1ms") eq_refl))
             Htwo).
Defined.

(** ** Per-pattern totals *)






(** ** Sums of functions that agree on a list *)

Lemma sumZ_ext_in {A} (g h : A -> Z) (l : list A) :
  (forall x, x ∈ l -> g x = h x) -> sumZ (map g l) = sumZ (map h l).
Proof.
  induction l as [|x l IH]; intros Hext; [done|].
  cbn [map sumZ foldr]. fold (sumZ (map g l)). fold (sumZ (map h l)).
  rewrite IH, (Hext x) by (intros; try apply Hext; by constructor). done.
Qed.

(** ** [countLines] *)

Lemma IndexByte_lt s c i : IndexByte s c = Some i -> (i < String.length s)%nat.
Proof.
  revert i. induction s as [|a s IH]; intros i; simpl; [done|].
  destruct (Ascii.eqb a c); [intros [= <-]; lia|].
  destruct (IndexByte s c) as [j|]; [|done].
  intros [= <-]. specialize (IH j eq_refl). lia.
Qed.

Lemma IndexByte_slice_to M s c i :
  IndexByte s c = Some i -> (i < M)%nat -> IndexByte (slice_to M s) c = Some i.
Proof.
  revert M i. induction s as [|a s IH]; intros M i; simpl; [done|].
  destruct M as [|M]; [lia|]. simpl.
  destruct (Ascii.eqb a c); [done|].
  destruct (IndexByte s c) as [j|]; [|done].
  intros [= <-] Hlt. rewrite (IH M j eq_refl) by lia. done.
Qed.

Lemma slice_to_slice_to i M s :
  (i <= M)%nat -> slice_to i (slice_to M s) = slice_to i s.
Proof.
  revert i M. induction s as [|a s IH]; intros i M Hle.
  - by destruct i, M.
  - destruct i as [|i]; [by destruct M|].
    destruct M as [|M]; [lia|]. simpl. rewrite IH by lia. done.
Qed.

Lemma slice_to_all M s : (String.length s <= M)%nat -> slice_to M s = s.
Proof.
  revert M. induction s as [|a s IH]; intros M Hle; [by destruct M|].
  destruct M as [|M]; simpl in *; [lia|]. rewrite IH by lia. done.
Qed.

Lemma length_slice_to i s :
  (i <= String.length s)%nat -> String.length (slice_to i s) = i.
Proof.
  revert i. induction s as [|a s IH]; intros i Hle; destruct i as [|i];
    simpl in *; try lia. rewrite IH by lia. done.
Qed.

Lemma length_slice_from n s :
  String.length (slice_from n s) = (String.length s - n)%nat.
Proof.
  revert n. induction s as [|a s IH]; intros n; destruct n as [|n]; simpl; auto.
Qed.

Lemma slice_from_all s : slice_from (String.length s) s = EmptyString.
Proof. induction s as [|a s IH]; simpl; auto. Qed.

Lemma isEmpty_length s : isEmpty s = true <-> String.length s = O.
Proof. by destruct s. Qed.

Lemma splitLines_index s i :
  IndexByte s LF = Some i ->
  splitLines s = slice_to i s :: splitLines (slice_from (S i) s).
Proof.
  revert i. induction s as [|a s IH]; intros i; simpl; [done|].
  destruct (Ascii.eqb a LF); [by intros [= <-]|].
  destruct (IndexByte s LF) as [j|]; [|done].
  intros [= <-]. rewrite (IH j eq_refl). done.
Qed.

Lemma splitLines_no_index s :
  IndexByte s LF = None -> isEmpty s = false -> splitLines s = [s].
Proof.
  induction s as [|a s IH]; simpl; [done|].
  destruct (Ascii.eqb a LF); [done|].
  destruct (IndexByte s LF) as [j|]; [done|].
  intros _ _. destruct s as [|b s]; [done|].
  by rewrite IH.
Qed.

(** [Scan] on a scanner that has not stopped. *)
Lemma Scan_unfold s tok :
  Scan {| input := s; token := tok; tooLong := false |} =
  match ScanLines (slice_to MaxScanTokenSize s)
                  (String.length s <? MaxScanTokenSize)%nat with
  | (advance, Some tok') =>
      (true, {| input := slice_from advance s; token := tok'; tooLong := false |})
  | (_, None) =>
      (false, {| input := s; token := EmptyString;
                 tooLong := negb (String.length s <? MaxScanTokenSize)%nat |})
  end.
Proof. reflexivity. Qed.

Opaque MaxScanTokenSize.

(** At the end of the input [Scan] reports that there is no token. *)
Lemma Scan_eof tok :
  (Scan {| input := EmptyString; token := tok; tooLong := false |}).1 = false.
Proof.
  rewrite Scan_unfold. unfold ScanLines.
  replace (slice_to MaxScanTokenSize EmptyString) with EmptyString
    by (by destruct MaxScanTokenSize).
  simpl. by destruct (0 <? MaxScanTokenSize)%nat.
Qed.

(** A line that ends with a line feed within the buffer is the next token. *)
Lemma Scan_line s tok i :
  IndexByte s LF = Some i -> (i < MaxScanTokenSize)%nat ->
  Scan {| input := s; token := tok; tooLong := false |} =
  (true, {| input := slice_from (S i) s; token := dropCR (slice_to i s);
            tooLong := false |}).
Proof.
  intros Hi Hlt. rewrite Scan_unfold. unfold ScanLines.
  pose proof (IndexByte_slice_to _ _ _ _ Hi Hlt) as Hbuf. rewrite Hbuf.
  assert (Hne : isEmpty (slice_to MaxScanTokenSize s) = false).
  { destruct (slice_to MaxScanTokenSize s); [done | done]. }
  rewrite Hne, andb_false_r, slice_to_slice_to by lia. done.
Qed.

(** The rest of the file without line feed, shorter than the buffer, is
    the last token. *)
Lemma Scan_last_line s tok :
  IndexByte s LF = None -> isEmpty s = false ->
  (String.length s < MaxScanTokenSize)%nat ->
  Scan {| input := s; token := tok; tooLong := false |} =
  (true, {| input := EmptyString; token := dropCR s; tooLong := false |}).
Proof.
  intros Hi Hne Hlt. rewrite Scan_unfold. unfold ScanLines.
  rewrite slice_to_all by lia. rewrite Hne, andb_false_r, Hi.
  apply Nat.ltb_lt in Hlt. rewrite Hlt.
  by rewrite slice_from_all.
Qed.

(** A line that fills the buffer before its line feed stops the scan. *)
Lemma Scan_too_long s tok :
  IndexByte (slice_to MaxScanTokenSize s) LF = None ->
  (MaxScanTokenSize <= String.length s)%nat ->
  Scan {| input := s; token := tok; tooLong := false |} =
  (false, {| input := s; token := EmptyString; tooLong := true |}).
Proof.
  intros Hi Hge. rewrite Scan_unfold. unfold ScanLines.
  apply Nat.ltb_ge in Hge. rewrite Hge, Hi. done.
Qed.

(** Every successful [Scan] consumes input. *)
Lemma Scan_consumes sc sc' :
  Scan sc = (true, sc') ->
  (String.length (input sc') < String.length (input sc))%nat.
Proof.
  destruct sc as [s tok long]. unfold Scan. cbn [input]. unfold ScanLines.
  destruct ((String.length s <? MaxScanTokenSize)%nat
            && isEmpty (slice_to MaxScanTokenSize s)) eqn:E0; [done|].
  destruct (IndexByte (slice_to MaxScanTokenSize s) LF) as [i|] eqn:Hi.
  - intros H. injection H as H. subst sc'. cbn [input].
    change (String.length (slice_from (S i) s) < String.length s)%nat.
    rewrite length_slice_from. apply IndexByte_lt in Hi.
    assert (String.length (slice_to MaxScanTokenSize s) <= String.length s)%nat.
    { clear. generalize MaxScanTokenSize. induction s as [|a s IH]; intros [|M];
        simpl; try lia. specialize (IH M). lia. }
    lia.
  - destruct (String.length s <? MaxScanTokenSize)%nat eqn:Hlt; [|done].
    intros H. injection H as H. subst sc'. cbn [input].
    rewrite length_slice_from. apply Nat.ltb_lt in Hlt. rewrite slice_to_all in E0 by lia.
    rewrite slice_to_all by lia.
    simpl in E0. destruct s; [done|]. simpl. lia.
Qed.

(** The loop of [countLines] ends because [Scan] returns false, not because
    the fuel runs out: any fuel above the number of unread bytes gives the
    same count. *)
Lemma countLines_loop_fuel fuel1 fuel2 sc count :
  (String.length (input sc) < fuel1)%nat ->
  (String.length (input sc) < fuel2)%nat ->
  countLines_loop fuel1 sc count = countLines_loop fuel2 sc count.
Proof.
  revert fuel2 sc count.
  induction fuel1 as [|fuel1 IH]; intros fuel2 sc count H1 H2; [lia|].
  destruct fuel2 as [|fuel2]; [lia|]. cbn [countLines_loop].
  destruct (Scan sc) as [ok sc'] eqn:HS. destruct ok; [|done].
  apply Scan_consumes in HS. apply IH; lia.
Qed.

Lemma countNonBlank_cons l ls :
  countNonBlank (l :: ls) = (if nonBlank l then 1 else 0) + countNonBlank ls.
Proof.
  unfold countNonBlank. rewrite filter_cons.
  destruct (nonBlank l); simpl; lia.
Qed.

Lemma nonBlankLines_empty : nonBlankLines EmptyString = 0.
Proof. reflexivity. Qed.

(** What the loop adds for one token. *)
Lemma count_step c line :
  inRange c ->
  inRange (if isEmpty (TrimSpace line) then c else add64 c 1) /\
  forall n,
    wrap64 ((if isEmpty (TrimSpace line) then c else add64 c 1) + n)
    = wrap64 (c + ((if nonBlank line then 1 else 0) + n)).
Proof.
  intros Hc. unfold nonBlank. destruct (isEmpty (TrimSpace line)); simpl.
  - split; [done|]. intros n. f_equal.
  - split; [apply wrap64_range|]. intros n. unfold add64.
    rewrite wrap64_add_l. f_equal. lia.
Qed.

(** On a file whose lines all fit in the buffer the loop counts the
    non-blank lines. *)
Lemma countLines_loop_short fuel s tok c :
  (String.length s < fuel)%nat ->
  shortLines s ->
  inRange c ->
  countLines_loop fuel {| input := s; token := tok; tooLong := false |} c
  = wrap64 (c + nonBlankLines s).
Proof.
  revert s tok c. induction fuel as [|fuel IH]; intros s tok c Hfuel Hshort Hc; [lia|].
  cbn [countLines_loop].
  destruct (isEmpty s) eqn:Hs.
  { destruct s; [|done].
    pose proof (Scan_eof tok) as HE.
    destruct (Scan {| input := EmptyString; token := tok; tooLong := false |})
      as [ok sc']. simpl in HE. subst ok.
    rewrite nonBlankLines_empty, Z.add_0_r. symmetry. by apply wrap64_inRange. }
  unfold shortLines in Hshort. unfold nonBlankLines, fileLines.
  destruct (IndexByte s LF) as [i|] eqn:Hi.
  - pose proof (IndexByte_lt _ _ _ Hi) as Hlen.
    rewrite (splitLines_index _ _ Hi) in Hshort |- *.
    apply Forall_cons in Hshort as [Hline Hrest].
    rewrite length_slice_to in Hline by lia.
    rewrite (Scan_line _ _ _ Hi Hline). cbn [Text token map].
    rewrite countNonBlank_cons.
    destruct (count_step c (dropCR (slice_to i s)) Hc) as [Hc' Heq].
    rewrite IH; [apply Heq | | done | done].
    rewrite length_slice_from. lia.
  - rewrite (splitLines_no_index _ Hi Hs) in Hshort |- *.
    apply Forall_cons in Hshort as [Hline _].
    rewrite (Scan_last_line _ _ Hi Hs Hline). cbn [Text token map].
    rewrite countNonBlank_cons.
    destruct (count_step c (dropCR s) Hc) as [Hc' Heq].
    rewrite (IH EmptyString); [| destruct s; simpl in *; [done | lia] | constructor | done].
    rewrite nonBlankLines_empty. apply Heq.
Qed.

(** When the first [MaxScanTokenSize] bytes of a file hold no line feed,
    the first [Scan] fails and [countLines] counts nothing, whatever
    follows. *)
Lemma countContent_first_line_too_long content :
  IndexByte (slice_to MaxScanTokenSize content) LF = None ->
  (MaxScanTokenSize <= String.length content)%nat ->
  countContent content = 0.
Proof.
  intros Hi Hge. unfold countContent, NewScanner. cbn [countLines_loop].
  by rewrite (Scan_too_long _ _ Hi Hge).
Qed.

Transparent MaxScanTokenSize.

Lemma inRange_0 : inRange 0.
Proof. unfold inRange, minInt64, maxInt64. lia. Qed.

Lemma countNonBlank_bound ls : 0 <= countNonBlank ls <= Z.of_nat (length ls).
Proof.
  unfold countNonBlank. pose proof (length_filter (fun l => nonBlank l = true) ls). lia.
Qed.

(** [countLines] counts the non-blank lines of a file that it can open
    and whose lines all fit in the scanner's buffer. *)
Lemma countLines_short_lines os filePath content :
  Open os filePath = Some content ->
  shortLines content ->
  nonBlankLines content <= maxInt64 ->
  countLines os filePath = nonBlankLines content.
Proof.
  intros HO Hshort Hmax. unfold countLines, countContent, NewScanner. rewrite HO.
  rewrite countLines_loop_short by (lia || done || apply inRange_0).
  apply wrap64_inRange. unfold nonBlankLines in *.
  pose proof (countNonBlank_bound (fileLines content)).
  unfold inRange, minInt64. lia.
Qed.

(** [countLines] returns 0, and no error, for a file that cannot be
    opened. *)
Lemma countLines_unopenable os filePath :
  Open os filePath = None -> countLines os filePath = 0.
Proof. intros HO. unfold countLines. by rewrite HO. Qed.

(** The file of [TestCountLines] has three non-blank lines. *)
Lemma countLines_testContent :
  shortLines testContent /\ nonBlankLines testContent = 3 /\
  countContent testContent = 3.
Proof.
  split; [|split; vm_compute; reflexivity].
  unfold shortLines. apply Forall_forall. intros l Hl.
  vm_compute in Hl.
  repeat (apply elem_of_cons in Hl as [->|Hl];
          [apply Nat.ltb_lt; vm_compute; reflexivity|]).
  by apply elem_of_nil in Hl.
Qed.

(** A first line of 65535 bytes still fits in the buffer with its line
    feed. *)
Lemma countLines_longest_line :
  countContent (repeatByte (MaxScanTokenSize - 1) "x" +:+ nl +:+ "y" +:+ nl) = 2.
Proof. vm_compute. reflexivity. Qed.

(** C3 (the code departs from the claim).  The file [/r/min.js] can be
    opened and has two non-blank lines, the first of 65536 bytes.
    [countLines] returns 0 for it: the first [Scan] fills the buffer
    without finding a line feed and stops with [ErrTooLong], and the loop
    of [countLines], which never consults [scanner.Err], ends there. *)
Theorem countLines_stops_at_long_line :
  Open osDemo "/r/min.js" = Some longLineContent /\
  fileLines longLineContent = [repeatByte MaxScanTokenSize "x"; "y"] /\
  nonBlankLines longLineContent = 2 /\
  Scan (NewScanner longLineContent)
    = (false, {| input := longLineContent; token := EmptyString;
                 tooLong := true |}) /\
  countLines osDemo "/r/min.js" = 0.
Proof. repeat split; vm_compute; reflexivity. Qed.

(** [countLines] never counts more lines than the file has bytes; below
    2^63 bytes the counter cannot wrap around. *)
Lemma countLines_loop_bounds fuel sc c :
  0 <= c ->
  c + Z.of_nat (String.length (input sc)) <= maxInt64 ->
  c <= countLines_loop fuel sc c <= c + Z.of_nat (String.length (input sc)).
Proof.
  revert sc c. induction fuel as [|fuel IH]; intros sc c Hc Hmax;
    cbn [countLines_loop]; [lia|].
  destruct (Scan sc) as [ok sc'] eqn:HS. destruct ok; [|lia].
  apply Scan_consumes in HS.
  destruct (isEmpty (TrimSpace (Text sc'))).
  - specialize (IH sc' c Hc). lia.
  - assert (Hadd : add64 c 1 = c + 1).
    { apply wrap64_inRange. unfold inRange, minInt64, maxInt64 in *. lia. }
    rewrite Hadd. specialize (IH sc' (c + 1)). lia.
Qed.

Lemma countLines_bounds os filePath content :
  Open os filePath = Some content ->
  Z.of_nat (String.length content) <= maxInt64 ->
  0 <= countLines os filePath <= Z.of_nat (String.length content).
Proof.
  intros HO Hmax. unfold countLines, countContent. rewrite HO.
  apply (countLines_loop_bounds _ (NewScanner content) 0); [lia | done].
Qed.

(** The report does not depend on the order in which the patterns are
    supplied: the map of results forgets it. *)
Lemma report_forgets_pattern_order os sc dir patterns1 patterns2 :
  sched_ok sc ->
  patterns1 ≡ₚ patterns2 ->
  stdout (processInput os sc dir patterns1) = stdout (processInput os sc dir patterns2).
Proof.
  intros Hsc Hp. unfold processInput. destruct (Abs os dir) as [absDir|e]; [|done].
  assert (Hres : (countLocs os sc absDir patterns1).1
                 = (countLocs os sc absDir patterns2).1).
  { apply map_eq. intros q. rewrite !countLocs_lookup by done.
    destruct (decide (q ∈ patterns1 /\ globOk os absDir q = true)) as [[H1 H2]|Hn].
    - rewrite decide_True; [done|]. split; [by rewrite <- Hp | done].
    - rewrite decide_False; [done|]. intros [H1 H2]. apply Hn.
      split; [by rewrite Hp | done]. }
  destruct (countLocs os sc absDir patterns1) as [r1 e1].
  destruct (countLocs os sc absDir patterns2) as [r2 e2].
  simpl in Hres. subst r2. cbn [stdout].
  by rewrite (Permutation_length Hp).
Qed.

(** A relative path in a process without working directory: the run aborts
    before any pattern is expanded. *)
Lemma unresolved_directory_aborts :
  processInput osNoCwd (seqSched "1ms") "src" ["*.go"; "*.txt"] =
    {| stdout := EmptyString;
       stderr := "Failed to resolve directory: getwd: no such file or directory"
                 +:+ nl;
       exit := Some 1 |}.
Proof. reflexivity. Qed.

(** ** The tests of the repository *)

(** [TestCountLocs]: two text files of 2 and 3 non-blank lines. *)
Lemma TestCountLocs_passes :
  (countLocs osTests (seqSched "1ms") "/tmp/t" ["**/*.txt"]).1 !! "**/*.txt"
  = Some 5.
Proof. vm_compute. reflexivity. Qed.

(** [TestProcessInputMultiplePatterns]: the output has the header, both
    patterns and the total. *)
Lemma TestProcessInputMultiplePatterns_passes :
  stdout (processInput osTests (seqSched "1ms") "/tmp/t" ["**/*.rs"; "**/*.ts"])
  = "Breakdown of Lines of Code by Glob:" +:+ nl +:+ nl +:+
    "-  **/*.rs: 2" +:+ nl +:+
    "-  **/*.ts: 1" +:+ nl +:+ nl +:+
    "Total:" +:+ tab +:+ "3 lines of code" +:+ nl +:+ nl +:+
    "Elapsed time: 1ms" +:+ nl.
Proof. vm_compute. reflexivity. Qed.

(** * Further properties *)

(** ** [countLines] on files given line by line *)

Lemma length_append (a b : string) :
  String.length (a +:+ b) = (String.length a + String.length b)%nat.
Proof.
  induction a as [|x a IH]; [done|]. rewrite append_cons. simpl. by rewrite IH.
Qed.

Lemma IndexByte_append_line l c t :
  IndexByte l c = None -> IndexByte (l +:+ String c t) c = Some (String.length l).
Proof.
  induction l as [|x l IH]; intros Hl.
  - rewrite append_nil_l. simpl. by rewrite Ascii.eqb_refl.
  - rewrite append_cons. simpl in *. destruct (Ascii.eqb x c); [done|].
    destruct (IndexByte l c); [done|]. by rewrite IH.
Qed.

Lemma IndexByte_append_None a b c :
  IndexByte a c = None -> IndexByte b c = None -> IndexByte (a +:+ b) c = None.
Proof.
  intros Ha Hb. induction a as [|x a IH]; [done|].
  rewrite append_cons. simpl in *. destruct (Ascii.eqb x c); [done|].
  destruct (IndexByte a c); [done|]. by rewrite IH.
Qed.

Lemma slice_to_append l t : slice_to (String.length l) (l +:+ t) = l.
Proof.
  induction l as [|x l IH]; [by destruct t|].
  rewrite append_cons. simpl. by rewrite IH.
Qed.

Lemma slice_from_append_line l c t :
  slice_from (S (String.length l)) (l +:+ String c t) = t.
Proof.
  induction l as [|x l IH]; [done|]. rewrite append_cons. exact IH.
Qed.

Lemma length_splitLines s : (length (splitLines s) <= String.length s)%nat.
Proof.
  induction s as [|c s IH]; simpl; [lia|].
  destruct (Ascii.eqb c LF); simpl; [lia|].
  destruct (splitLines s); simpl in *; lia.
Qed.

Lemma length_joinLines ls : (length ls <= String.length (joinLines ls))%nat.
Proof.
  induction ls as [|l ls IH]; simpl; [lia|].
  rewrite !length_append. simpl. lia.
Qed.

Opaque MaxScanTokenSize.

(** The loop reads the lines [ls] one by one and goes on with what
    follows them. *)
Lemma countLines_loop_lines ls rest fuel tok long c :
  Forall lineOK ls ->
  inRange c ->
  (String.length (joinLines ls +:+ rest) < fuel)%nat ->
  countLines_loop fuel {| input := joinLines ls +:+ rest; token := tok;
                          tooLong := long |} c
  = countLines_loop fuel {| input := rest; token := EmptyString; tooLong := false |}
      (wrap64 (c + countNonBlank (map dropCR ls))).
Proof.
  intros Hls. revert fuel tok long c.
  induction Hls as [|l ls [Hlf Hlen] Hls IH]; intros fuel tok long c Hc Hfuel.
  - change (joinLines [] +:+ rest) with rest in *. cbn [map].
    change (countNonBlank []) with 0. rewrite Z.add_0_r, wrap64_inRange by done.
    destruct fuel as [|fuel]; [lia|]. cbn [countLines_loop]. reflexivity.
  - destruct fuel as [|fuel]; [lia|].
    cbn [joinLines] in *. rewrite !append_assoc in *.
    change (nl +:+ joinLines ls +:+ rest) with (String LF (joinLines ls +:+ rest)) in *.
    rewrite length_append in Hfuel. cbn [String.length] in Hfuel.
    rewrite (countLines_loop_fuel (S fuel) fuel
               {| input := rest; token := EmptyString; tooLong := false |})
      by (cbn [input]; rewrite length_append in Hfuel; lia).
    cbn [countLines_loop].
    assert (HS : Scan {| input := l +:+ String LF (joinLines ls +:+ rest);
                         token := tok; tooLong := long |}
                 = (true, {| input := joinLines ls +:+ rest; token := dropCR l;
                             tooLong := false |})).
    { unfold Scan. cbn [input]. unfold ScanLines.
      rewrite (IndexByte_slice_to _ _ _ _ (IndexByte_append_line l LF _ Hlf) Hlen).
      assert (Hne : isEmpty (slice_to MaxScanTokenSize
                               (l +:+ String LF (joinLines ls +:+ rest))) = false).
      { pose proof (IndexByte_slice_to _ _ _ _ (IndexByte_append_line l LF
                      (joinLines ls +:+ rest) Hlf) Hlen) as Hi.
        by destruct (slice_to MaxScanTokenSize
                       (l +:+ String LF (joinLines ls +:+ rest))). }
      rewrite Hne, andb_false_r, slice_to_slice_to by lia.
      by rewrite slice_to_append, slice_from_append_line. }
    rewrite HS. cbn [Text token map]. rewrite countNonBlank_cons.
    destruct (count_step c (dropCR l) Hc) as [Hc' Heq].
    rewrite IH by (done || lia). by rewrite Heq.
Qed.

(** The loop adds what it counts to the counter it starts from. *)
Lemma countLines_loop_from fuel sc c :
  inRange c ->
  countLines_loop fuel sc c = wrap64 (c + countLines_loop fuel sc 0).
Proof.
  revert sc c. induction fuel as [|fuel IH]; intros sc c Hc; cbn [countLines_loop].
  - rewrite Z.add_0_r. symmetry. by apply wrap64_inRange.
  - destruct (Scan sc) as [ok sc']. destruct ok.
    + destruct (isEmpty (TrimSpace (Text sc'))).
      * by apply IH.
      * rewrite (IH sc' (add64 c 1)) by apply wrap64_range.
        rewrite (IH sc' (add64 0 1)) by apply wrap64_range.
        replace (add64 0 1) with 1 by (vm_compute; reflexivity).
        unfold add64. rewrite wrap64_add_l, wrap64_add_r. f_equal. lia.
    + rewrite Z.add_0_r. symmetry. by apply wrap64_inRange.
Qed.

Lemma countContent_joinLines ls :
  Forall lineOK ls ->
  countContent (joinLines ls) = wrap64 (countNonBlank (map dropCR ls)).
Proof.
  intros Hls. unfold countContent, NewScanner.
  rewrite <- (append_empty_r (joinLines ls)) at 2.
  rewrite (countLines_loop_lines ls EmptyString) by
    (done || apply inRange_0 || (rewrite append_empty_r; lia)).
  cbn [countLines_loop].
  pose proof (Scan_eof EmptyString) as HE.
  destruct (Scan {| input := EmptyString; token := EmptyString; tooLong := false |})
    as [ok sc']. simpl in HE. subst ok. done.
Qed.

Transparent MaxScanTokenSize.

(** ** Blank lines of ASCII files *)

Lemma get_ascii s n c :
  isAscii s = true -> String.get n s = Some c -> byteZ c < Utf8.RuneSelf.
Proof.
  revert n. induction s as [|a s IH]; intros n Hs; simpl; [done|].
  simpl in Hs. apply andb_true_iff in Hs as [Ha Hs].
  destruct n as [|n].
  - intros [= <-]. by apply Z.ltb_lt.
  - by apply IH.
Qed.

Lemma byteAt_ascii s i : isAscii s = true -> byteAt s i < Utf8.RuneSelf.
Proof.
  intros Hs. unfold byteAt. destruct (i <? 0); [done|].
  destruct (String.get (Z.to_nat i) s) as [c|] eqn:Hg; [|done].
  by apply (get_ascii s (Z.to_nat i)).
Qed.

(** Once the first byte is not a space, trimming from the right leaves it. *)
Lemma TrimSpace_stop_nonempty c s n :
  asciiSpace (byteZ c) = false ->
  isAscii (String c s) = true ->
  isEmpty (TrimSpace_stop (String c s) (S n)) = false.
Proof.
  intros Hc Hs. induction n as [|n IH].
  - cbn [TrimSpace_stop].
    change (byteAt (String c s) (Z.of_nat 0)) with (byteZ c). rewrite Hc.
    pose proof (byteAt_ascii _ 0 Hs) as Hlt.
    change (byteAt (String c s) 0) with (byteZ c) in Hlt.
    apply Z.leb_gt in Hlt. by rewrite Hlt.
  - change (TrimSpace_stop (String c s) (S (S n))) with
      (let c' := byteAt (String c s) (Z.of_nat (S n)) in
       if Utf8.RuneSelf <=? c'
       then TrimRightFunc (slice_to (S (S n)) (String c s)) Utf8.IsSpace
       else if asciiSpace c' then TrimSpace_stop (String c s) (S n)
            else slice_to (S (S n)) (String c s)).
    cbv zeta.
    pose proof (byteAt_ascii _ (Z.of_nat (S n)) Hs) as Hlt.
    apply Z.leb_gt in Hlt. rewrite Hlt.
    by destruct (asciiSpace (byteAt (String c s) (Z.of_nat (S n)))).
Qed.

(** On ASCII, [TrimSpace] leaves nothing exactly when every byte is a
    space. *)
Lemma TrimSpace_ascii s :
  isAscii s = true -> isEmpty (TrimSpace s) = negb (hasNonSpace s).
Proof.
  induction s as [|c s IH]; [done|]. intros Hs.
  pose proof Hs as Hs'. simpl in Hs'. apply andb_true_iff in Hs' as [Hc Hrest].
  apply Z.ltb_lt in Hc. cbn [TrimSpace hasNonSpace].
  assert (Hle : (Utf8.RuneSelf <=? byteZ c) = false) by (apply Z.leb_gt; lia).
  rewrite Hle. destruct (asciiSpace (byteZ c)) eqn:Hsp.
  - by apply IH.
  - cbn [String.length]. by rewrite TrimSpace_stop_nonempty.
Qed.

Lemma hasNonSpace_dropCR l : hasNonSpace (dropCR l) = hasNonSpace l.
Proof.
  induction l as [|c l IH]; [done|].
  destruct l as [|d l].
  - cbn [dropCR]. destruct (Ascii.eqb_spec c CR) as [->|]; done.
  - change (dropCR (String c (String d l))) with (String c (dropCR (String d l))).
    cbn [hasNonSpace] in *. by rewrite IH.
Qed.

Lemma isAscii_dropCR l : isAscii l = true -> isAscii (dropCR l) = true.
Proof.
  induction l as [|c l IH]; [done|].
  destruct l as [|d l].
  - cbn [dropCR]. by destruct (Ascii.eqb c CR).
  - change (dropCR (String c (String d l))) with (String c (dropCR (String d l))).
    cbn [isAscii] in *. intros [Hc Hl]%andb_true_iff.
    apply andb_true_iff. split; [done|]. by apply IH.
Qed.

Lemma isAscii_splitLines s :
  isAscii s = true -> Forall (fun l => isAscii l = true) (splitLines s).
Proof.
  induction s as [|c s IH]; [constructor|].
  cbn [isAscii splitLines]. intros [Hc Hs]%andb_true_iff.
  specialize (IH Hs). destruct (Ascii.eqb c LF).
  - by constructor.
  - destruct (splitLines s) as [|l ls].
    + constructor; [|done]. cbn [isAscii]. by rewrite Hc.
    + apply Forall_cons in IH as [Hl Hls].
      constructor; [|done]. cbn [isAscii]. by rewrite Hc, Hl.
Qed.

Lemma countNonBlank_ascii ls :
  Forall (fun l => isAscii l = true) ls ->
  countNonBlank (map dropCR ls)
  = Z.of_nat (length (filter (fun l => hasNonSpace l = true) ls)).
Proof.
  induction 1 as [|l ls Hl Hls IH]; [done|].
  cbn [map]. rewrite countNonBlank_cons, IH, filter_cons.
  unfold nonBlank. rewrite (TrimSpace_ascii _ (isAscii_dropCR _ Hl)).
  rewrite negb_involutive, hasNonSpace_dropCR.
  destruct (hasNonSpace l); simpl; lia.
Qed.

(** ** Properties of [countLines] *)

Lemma countNonBlank_app l1 l2 :
  countNonBlank (l1 ++ l2) = countNonBlank l1 + countNonBlank l2.
Proof.
  unfold countNonBlank. rewrite filter_app, length_app. lia.
Qed.

Lemma joinLines_app ls l :
  joinLines (ls ++ [l]) = joinLines ls +:+ l +:+ nl.
Proof.
  induction ls as [|x ls IH]; cbn [joinLines app].
  - by rewrite append_nil_l, append_empty_r.
  - by rewrite IH, !append_assoc.
Qed.

Lemma nonBlankLines_le_length content :
  nonBlankLines content <= Z.of_nat (String.length content).
Proof.
  unfold nonBlankLines, fileLines.
  pose proof (countNonBlank_bound (map dropCR (splitLines content))) as Hb.
  rewrite length_map in Hb. pose proof (length_splitLines content). lia.
Qed.

Lemma lineOK_intro l :
  IndexByte l LF = None ->
  (String.length l <? MaxScanTokenSize)%nat = true ->
  lineOK l.
Proof. intros Hi Hl. split; [done | by apply Nat.ltb_lt]. Qed.

(** X1.  For a file that can be opened, is smaller than 2^63 bytes and has
    no line of 65536 bytes or more, [countLines] returns the number of its
    lines that are not empty once [strings.TrimSpace] has trimmed them. *)
Theorem countLines_counts_non_blank_lines (os : OS) (filePath content : string) :
  Open os filePath = Some content ->
  shortLines content ->
  Z.of_nat (String.length content) <= maxInt64 ->
  countLines os filePath = nonBlankLines content.
Proof.
  intros HO Hshort Hmax. apply countLines_short_lines; [done | done |].
  pose proof (nonBlankLines_le_length content). lia.
Qed.

Lemma countLines_counts_non_blank_lines_witness :
  Open osTests "/tmp/t/subdir/file2.txt"
    = Some ("One" +:+ nl +:+ "Two" +:+ nl +:+ "Three" +:+ nl) /\
  shortLines ("One" +:+ nl +:+ "Two" +:+ nl +:+ "Three" +:+ nl) /\
  Z.of_nat (String.length ("One" +:+ nl +:+ "Two" +:+ nl +:+ "Three" +:+ nl))
    <= maxInt64 /\
  countLines osTests "/tmp/t/subdir/file2.txt"
    = nonBlankLines ("One" +:+ nl +:+ "Two" +:+ nl +:+ "Three" +:+ nl).
Proof.
  assert (Hs : shortLines ("One" +:+ nl +:+ "Two" +:+ nl +:+ "Three" +:+ nl)).
  { apply (bool_decide_unpack _). vm_compute. reflexivity. }
  assert (Hm : Z.of_nat (String.length
                 ("One" +:+ nl +:+ "Two" +:+ nl +:+ "Three" +:+ nl)) <= maxInt64).
  { vm_compute. discriminate. }
  split; [reflexivity|]. split; [exact Hs|]. split; [exact Hm|].
  exact (countLines_counts_non_blank_lines osTests "/tmp/t/subdir/file2.txt" _
           eq_refl Hs Hm).
Defined.

(** X2.  For such a file made of ASCII bytes, [countLines] returns the
    number of lines (the pieces between line feeds) that hold a byte other
    than tab, line feed, vertical tab, form feed, carriage return and
    space. *)
Theorem countLines_ascii_file (os : OS) (filePath content : string) :
  Open os filePath = Some content ->
  isAscii content = true ->
  shortLines content ->
  Z.of_nat (String.length content) <= maxInt64 ->
  countLines os filePath
  = Z.of_nat (length (filter (fun l => hasNonSpace l = true) (splitLines content))).
Proof.
  intros HO Hascii Hshort Hmax.
  rewrite (countLines_short_lines os filePath content HO Hshort).
  - unfold nonBlankLines, fileLines.
    by apply countNonBlank_ascii, isAscii_splitLines.
  - pose proof (nonBlankLines_le_length content). lia.
Qed.

Lemma countLines_ascii_file_witness :
  Open osDemo "/r/x.go" = Some testContent /\
  isAscii testContent = true /\
  shortLines testContent /\
  Z.of_nat (String.length testContent) <= maxInt64 /\
  countLines osDemo "/r/x.go"
  = Z.of_nat (length (filter (fun l => hasNonSpace l = true)
                             (splitLines testContent))).
Proof.
  assert (Hs : shortLines testContent).
  { apply (bool_decide_unpack _). vm_compute. reflexivity. }
  assert (Hm : Z.of_nat (String.length testContent) <= maxInt64).
  { vm_compute. discriminate. }
  split; [reflexivity|]. split; [reflexivity|]. split; [exact Hs|].
  split; [exact Hm|].
  exact (countLines_ascii_file osDemo "/r/x.go" testContent eq_refl eq_refl Hs Hm).
Defined.

(** X3.  When the lines [ls] of a file are followed by a line of 65536
    bytes or more, [countLines] returns the number of non-blank lines among
    [ls]: the long line and everything after it is left out, and no error
    is reported. *)
Theorem countLines_truncates_at_long_line (os : OS) (filePath : string)
        (ls : list string) (rest : string) :
  Open os filePath = Some (joinLines ls +:+ rest) ->
  Forall lineOK ls ->
  IndexByte (slice_to MaxScanTokenSize rest) LF = None ->
  (MaxScanTokenSize <= String.length rest)%nat ->
  Z.of_nat (length ls) <= maxInt64 ->
  countLines os filePath = countNonBlank (map dropCR ls).
Proof.
  intros HO Hls Hi Hge Hmax. unfold countLines, countContent, NewScanner.
  rewrite HO.
  rewrite (countLines_loop_lines ls rest) by (done || apply inRange_0 || lia).
  cbn [countLines_loop]. rewrite (Scan_too_long _ _ Hi Hge).
  apply wrap64_inRange.
  pose proof (countNonBlank_bound (map dropCR ls)) as Hb.
  rewrite length_map in Hb. unfold inRange, minInt64. lia.
Qed.

Lemma countLines_truncates_at_long_line_witness :
  Open osBundle "/r/app.js"
    = Some (joinLines ["// bundle"; ""; "var a;"] +:+ bundleTail) /\
  Forall lineOK ["// bundle"; ""; "var a;"] /\
  IndexByte (slice_to MaxScanTokenSize bundleTail) LF = None /\
  (MaxScanTokenSize <= String.length bundleTail)%nat /\
  Z.of_nat (length ["// bundle"; ""; "var a;"]) <= maxInt64 /\
  countLines osBundle "/r/app.js"
    = countNonBlank (map dropCR ["// bundle"; ""; "var a;"]).
Proof.
  assert (Hls : Forall lineOK ["// bundle"; ""; "var a;"]).
  { repeat (constructor; [apply lineOK_intro; vm_compute; reflexivity|]).
    constructor. }
  assert (Hi : IndexByte (slice_to MaxScanTokenSize bundleTail) LF = None)
    by (vm_compute; reflexivity).
  assert (Hge : (MaxScanTokenSize <= String.length bundleTail)%nat)
    by (apply Nat.leb_le; vm_compute; reflexivity).
  assert (Hm : Z.of_nat (length ["// bundle"; ""; "var a;"]) <= maxInt64)
    by (vm_compute; discriminate).
  split; [reflexivity|]. split; [exact Hls|]. split; [exact Hi|].
  split; [exact Hge|]. split; [exact Hm|].
  exact (countLines_truncates_at_long_line osBundle "/r/app.js"
           ["// bundle"; ""; "var a;"] bundleTail eq_refl Hls Hi Hge Hm).
Defined.

Lemma MaxScanTokenSize_pos : (0 < MaxScanTokenSize)%nat.
Proof. apply Nat.ltb_lt. vm_compute. reflexivity. Qed.

Opaque MaxScanTokenSize.

Lemma slice_to_append_le M r t :
  (M <= String.length r)%nat -> slice_to M (r +:+ t) = slice_to M r.
Proof.
  revert M. induction r as [|a r IH]; intros M Hle.
  - simpl in Hle. assert (M = O) as -> by lia. by destruct t.
  - rewrite append_cons. destruct M as [|M]; [done|].
    simpl in *. rewrite IH by lia. done.
Qed.

Lemma slice_from_append_le n r t :
  (n <= String.length r)%nat -> slice_from n (r +:+ t) = slice_from n r +:+ t.
Proof.
  revert n. induction r as [|a r IH]; intros n Hle.
  - simpl in Hle. assert (n = O) as -> by lia. done.
  - destruct n as [|n]; [done|]. rewrite append_cons.
    simpl in *. apply IH. lia.
Qed.

Lemma IndexByte_append_Some r t c i :
  IndexByte r c = Some i -> IndexByte (r +:+ t) c = Some i.
Proof.
  revert i. induction r as [|a r IH]; intros i; [done|].
  rewrite append_cons. simpl. destruct (Ascii.eqb a c); [done|].
  destruct (IndexByte r c) as [j|]; [|done].
  intros [= <-]. by rewrite (IH j eq_refl).
Qed.

Lemma IndexByte_slice_to_ge M s c i :
  IndexByte s c = Some i -> (M <= i)%nat -> IndexByte (slice_to M s) c = None.
Proof.
  revert M i. induction s as [|a s IH]; intros M i; simpl; [done|].
  destruct M as [|M]; [done|]. simpl.
  destruct (Ascii.eqb a c); [intros [= <-]; lia|].
  destruct (IndexByte s c) as [j|]; [|done].
  intros [= <-] Hle. rewrite (IH M j eq_refl) by lia. done.
Qed.

Lemma IndexByte_slice_to_None M s c :
  IndexByte s c = None -> IndexByte (slice_to M s) c = None.
Proof.
  revert M. induction s as [|a s IH]; intros M; simpl; [by destruct M|].
  destruct M as [|M]; [done|]. simpl.
  destruct (Ascii.eqb a c); [done|].
  destruct (IndexByte s c) as [j|]; [done|].
  intros _. by rewrite IH.
Qed.

(** A line feed added at the end of the unread input does not change what
    the loop counts. *)
Lemma countLines_loop_line_feed fuel1 fuel2 r tok c :
  (String.length r < fuel1)%nat ->
  (S (String.length r) < fuel2)%nat ->
  countLines_loop fuel2 {| input := r +:+ nl; token := tok; tooLong := false |} c
  = countLines_loop fuel1 {| input := r; token := tok; tooLong := false |} c.
Proof.
  revert fuel2 r tok c.
  induction fuel1 as [|fuel1 IH]; intros fuel2 r tok c H1 H2; [lia|].
  destruct fuel2 as [|fuel2]; [lia|]. cbn [countLines_loop].
  destruct (IndexByte r LF) as [i|] eqn:Hi.
  - pose proof (IndexByte_lt _ _ _ Hi) as Hlt.
    destruct (decide (i < MaxScanTokenSize)%nat) as [Hin|Hout].
    + rewrite (Scan_line _ _ _ (IndexByte_append_Some _ nl _ _ Hi) Hin).
      rewrite (Scan_line _ _ _ Hi Hin). cbn [Text token].
      rewrite <- (slice_to_slice_to i (String.length r) (r +:+ nl)) by lia.
      rewrite slice_to_append.
      rewrite slice_from_append_le by lia.
      apply IH; rewrite length_slice_from; lia.
    + rewrite !Scan_too_long; [done| | | |].
      * by apply (IndexByte_slice_to_ge _ _ _ i); [|lia].
      * lia.
      * rewrite slice_to_append_le by lia.
        by apply (IndexByte_slice_to_ge _ _ _ i); [|lia].
      * rewrite length_append. lia.
  - destruct (decide (String.length r < MaxScanTokenSize)%nat) as [Hin|Hout].
    + destruct r as [|a r].
      * rewrite append_nil_l.
        rewrite (Scan_line nl tok O eq_refl MaxScanTokenSize_pos).
        cbn [Text token].
        change (dropCR (slice_to 0 nl)) with EmptyString.
        change (slice_from 1 nl) with EmptyString.
        change (isEmpty (TrimSpace EmptyString)) with true. cbv iota.
        destruct fuel2 as [|fuel2]; [simpl in H2; lia|]. cbn [countLines_loop].
        pose proof (Scan_eof EmptyString) as HE.
        destruct (Scan {| input := EmptyString; token := EmptyString;
                          tooLong := false |}) as [ok sc'].
        simpl in HE. subst ok.
        pose proof (Scan_eof tok) as HE.
        destruct (Scan {| input := EmptyString; token := tok;
                          tooLong := false |}) as [ok sc''].
        simpl in HE. subst ok. done.
      * rewrite (Scan_last_line _ _ Hi eq_refl Hin).
        rewrite (Scan_line _ _ _ (IndexByte_append_line _ LF EmptyString Hi) Hin).
        cbn [Text token].
        fold nl. rewrite slice_to_append.
        unfold nl. rewrite slice_from_append_line.
        apply countLines_loop_fuel; cbn [input String.length]; simpl in *; lia.
    + rewrite !Scan_too_long; [done| | | |].
      * by apply IndexByte_slice_to_None.
      * lia.
      * rewrite slice_to_append_le by lia. by apply IndexByte_slice_to_None.
      * rewrite length_append. lia.
Qed.

(** X4.  A last line without line feed is counted like a line with one:
    two files that differ only by a line feed at the end have the same
    count, whatever they hold. *)
Theorem countLines_final_line_feed_optional (os : OS) (file1 file2 : string)
        (content : string) :
  Open os file1 = Some content ->
  Open os file2 = Some (content +:+ nl) ->
  countLines os file1 = countLines os file2.
Proof.
  intros H1 H2. unfold countLines. rewrite H1, H2.
  unfold countContent, NewScanner. symmetry.
  apply countLines_loop_line_feed; rewrite ?length_append; simpl; lia.
Qed.

(** X5.  Counts add up under concatenation: when a file of complete lines
    is followed by any other content, [countLines] of the whole is the sum
    of [countLines] of the two parts (the whole is smaller than 2^63
    bytes). *)
Theorem countLines_concatenation (os : OS) (file1 file2 file12 : string)
        (ls : list string) (b : string) :
  Open os file1 = Some (joinLines ls) ->
  Open os file2 = Some b ->
  Open os file12 = Some (joinLines ls +:+ b) ->
  Forall lineOK ls ->
  Z.of_nat (String.length (joinLines ls +:+ b)) <= maxInt64 ->
  countLines os file12 = countLines os file1 + countLines os file2.
Proof.
  intros H1 H2 H12 Hls Hmax.
  rewrite length_append in Hmax.
  pose proof (countLines_bounds os file1 _ H1) as Hb1.
  pose proof (countLines_bounds os file2 _ H2) as Hb2.
  unfold countLines in *. rewrite H1, H2, H12 in *.
  rewrite (countContent_joinLines ls Hls) in *.
  unfold countContent at 1. unfold NewScanner.
  rewrite (countLines_loop_lines ls b) by (done || apply inRange_0 || lia).
  rewrite Z.add_0_l, countLines_loop_from by apply wrap64_range.
  rewrite (countLines_loop_fuel _ (S (String.length b))
             {| input := b; token := EmptyString; tooLong := false |})
    by (cbn [input]; rewrite ?length_append; lia).
  fold (NewScanner b). fold (countContent b).
  apply wrap64_inRange. unfold inRange, minInt64. lia.
Qed.

Transparent MaxScanTokenSize.

Lemma countLines_final_line_feed_optional_witness :
  Open osBundle "/r/a.txt" = Some (joinLines ["a"] +:+ "b") /\
  Open osBundle "/r/b.txt" = Some ((joinLines ["a"] +:+ "b") +:+ nl) /\
  countLines osBundle "/r/a.txt" = countLines osBundle "/r/b.txt".
Proof.
  split; [reflexivity|]. split; [reflexivity|].
  exact (countLines_final_line_feed_optional osBundle "/r/a.txt" "/r/b.txt"
           (joinLines ["a"] +:+ "b") eq_refl eq_refl).
Defined.

Lemma countLines_concatenation_witness :
  Open osBundle "/r/head.js" = Some (joinLines ["// bundle"; ""; "var a;"]) /\
  Open osBundle "/r/tail.js" = Some bundleTail /\
  Open osBundle "/r/app.js"
    = Some (joinLines ["// bundle"; ""; "var a;"] +:+ bundleTail) /\
  Forall lineOK ["// bundle"; ""; "var a;"] /\
  Z.of_nat (String.length (joinLines ["// bundle"; ""; "var a;"] +:+ bundleTail))
    <= maxInt64 /\
  countLines osBundle "/r/app.js"
    = countLines osBundle "/r/head.js" + countLines osBundle "/r/tail.js".
Proof.
  assert (Hls : Forall lineOK ["// bundle"; ""; "var a;"]).
  { repeat (constructor; [apply lineOK_intro; vm_compute; reflexivity|]).
    constructor. }
  assert (Hm : Z.of_nat (String.length
                 (joinLines ["// bundle"; ""; "var a;"] +:+ bundleTail))
               <= maxInt64) by (vm_compute; discriminate).
  split; [reflexivity|]. split; [reflexivity|]. split; [reflexivity|].
  split; [exact Hls|]. split; [exact Hm|].
  exact (countLines_concatenation osBundle "/r/head.js" "/r/tail.js" "/r/app.js"
           ["// bundle"; ""; "var a;"] bundleTail eq_refl eq_refl eq_refl Hls Hm).
Defined.

(** ** Properties of [countLocs], [processInput] and [main] *)

Lemma fileSize_nonneg os f : 0 <= fileSize os f.
Proof. unfold fileSize. destruct (Open os f); lia. Qed.

Lemma countLines_le_fileSize os f :
  fileSize os f <= maxInt64 -> 0 <= countLines os f <= fileSize os f.
Proof.
  unfold fileSize. destruct (Open os f) as [content|] eqn:HO; intros Hmax.
  - by apply countLines_bounds.
  - rewrite (countLines_unopenable _ _ HO). lia.
Qed.

Lemma sumZ_fileSize_nonneg os l : 0 <= sumZ (map (fileSize os) l).
Proof.
  induction l as [|f l IH]; simpl; [lia|]. pose proof (fileSize_nonneg os f). lia.
Qed.

Lemma sumZ_countLines_bounds os l :
  sumZ (map (fileSize os) l) <= maxInt64 ->
  0 <= sumZ (map (countLines os) l) <= sumZ (map (fileSize os) l).
Proof.
  induction l as [|f l IH]; cbn [map sumZ foldr]; [lia|].
  fold (sumZ (map (fileSize os) l)). fold (sumZ (map (countLines os) l)).
  intros Hmax. pose proof (fileSize_nonneg os f).
  pose proof (sumZ_fileSize_nonneg os l).
  pose proof (countLines_le_fileSize os f). lia.
Qed.

Lemma sumZ_remove_dups_le (g : string -> Z) (l : list string) :
  (forall x, x ∈ l -> 0 <= g x) ->
  sumZ (map g (remove_dups l)) <= sumZ (map g l).
Proof.
  induction l as [|x l IH]; intros Hg; [done|].
  assert (Hl : forall y, y ∈ l -> 0 <= g y) by (intros y Hy; apply Hg; by right).
  specialize (IH Hl). pose proof (Hg x (list_elem_of_here _ _)) as Hx.
  cbn [remove_dups map sumZ foldr]. fold (sumZ (map g l)).
  destruct (decide_rel elem_of x l); cbn [map sumZ foldr];
    fold (sumZ (map g (remove_dups l))); lia.
Qed.

Lemma fileSize_le_sumZ os f l :
  f ∈ l -> fileSize os f <= sumZ (map (fileSize os) l).
Proof.
  induction l as [|x l IH]; intros Hin; [by apply elem_of_nil in Hin|].
  cbn [map sumZ foldr]. fold (sumZ (map (fileSize os) l)).
  pose proof (sumZ_fileSize_nonneg os l). pose proof (fileSize_nonneg os x).
  apply elem_of_cons in Hin as [->|Hin]; [lia|]. specialize (IH Hin). lia.
Qed.

(** X6.  When the entries that the expansion of a well-formed pattern
    lists and that are files (an entry listed twice counting twice) hold
    fewer than 2^63 bytes in all, the total recorded for the pattern is the
    exact sum of the counts of these entries (no wrap-around); it is not
    negative, it does not exceed the number of bytes of these entries and
    it is not less than the sum of the counts of the distinct files
    listed. *)
Theorem pattern_total_bounded_by_bytes (os : OS) (sc : Sched) (root : string)
        (patterns : list string) (pattern : string) :
  sched_ok sc ->
  pattern ∈ patterns ->
  globOk os root pattern = true ->
  sumZ (map (fileSize os) (matchedFiles os root pattern)) <= maxInt64 ->
  (countLocs os sc root patterns).1 !! pattern
    = Some (sumZ (map (countLines os) (matchedFiles os root pattern))) /\
  0 <= sumZ (map (countLines os) (matchedFiles os root pattern))
    <= sumZ (map (fileSize os) (matchedFiles os root pattern)) /\
  sumZ (map (countLines os) (remove_dups (matchedFiles os root pattern)))
    <= sumZ (map (countLines os) (matchedFiles os root pattern)).
Proof.
  intros Hsc Hin Hok Hmax.
  pose proof (sumZ_countLines_bounds os (matchedFiles os root pattern) Hmax) as Hb.
  split; [|split; [exact Hb|]].
  - rewrite countLocs_lookup by done. rewrite decide_True by done.
    f_equal. apply wrap64_inRange.
    unfold inRange, minInt64, sumOfCounts in *. lia.
  - apply sumZ_remove_dups_le. intros f Hf.
    apply countLines_le_fileSize.
    pose proof (fileSize_le_sumZ os f _ Hf). lia.
Qed.

Lemma pattern_total_bounded_by_bytes_witness :
  sched_ok (seqSched "1ms") /\
  "**/**/*.txt" ∈ ["**/*.rs"; "**/**/*.txt"] /\
  globOk osDup "/tmp/t" "**/**/*.txt" = true /\
  sumZ (map (fileSize osDup) (matchedFiles osDup "/tmp/t" "**/**/*.txt"))
    <= maxInt64 /\
  matchedFiles osDup "/tmp/t" "**/**/*.txt"
    = ["/tmp/t/file1.txt"; "/tmp/t/subdir/file2.txt"; "/tmp/t/subdir/file2.txt"] /\
  (countLocs osDup (seqSched "1ms") "/tmp/t" ["**/*.rs"; "**/**/*.txt"]).1
    !! "**/**/*.txt"
    = Some (sumZ (map (countLines osDup) (matchedFiles osDup "/tmp/t" "**/**/*.txt"))).
Proof.
  assert (Hin : "**/**/*.txt" ∈ ["**/*.rs"; "**/**/*.txt"]) by (right; left).
  assert (Hm : sumZ (map (fileSize osDup) (matchedFiles osDup "/tmp/t" "**/**/*.txt"))
               <= maxInt64)
    by (vm_compute; discriminate).
  split; [apply seqSched_ok|]. split; [exact Hin|]. split; [reflexivity|].
  split; [exact Hm|]. split; [reflexivity|].
  exact (proj1 (pattern_total_bounded_by_bytes osDup (seqSched "1ms") "/tmp/t"
                  ["**/*.rs"; "**/**/*.txt"] "**/**/*.txt"
                  (seqSched_ok "1ms") Hin eq_refl Hm)).
Defined.

Lemma revGoSched_ok d : sched_ok (revGoSched d).
Proof.
  repeat split; intros; simpl; try done; symmetry; apply Permutation_rev.
Qed.

Lemma countLocs_same_pattern_set os sc1 sc2 root patterns1 patterns2 :
  sched_ok sc1 ->
  sched_ok sc2 ->
  (forall q, q ∈ patterns1 <-> q ∈ patterns2) ->
  (countLocs os sc1 root patterns1).1 = (countLocs os sc2 root patterns2).1.
Proof.
  intros Hsc1 Hsc2 Hset. apply map_eq. intros q.
  rewrite !countLocs_lookup by done.
  destruct (decide (q ∈ patterns1 /\ globOk os root q = true)) as [[H1 H2]|Hn].
  - rewrite decide_True; [done|]. split; [by apply Hset | done].
  - rewrite decide_False; [done|]. intros [H1 H2]. apply Hn.
    split; [by apply Hset | done].
Qed.

(** X7.  The map of results depends on the set of supplied patterns only,
    not on their order, on repetitions or on the schedule; two runs whose
    pattern lists have the same elements, both more than one or both not,
    print the same report when their print loops visit the map in the same
    order and they take the same time. *)
Theorem report_depends_on_pattern_set (os : OS) (sc1 sc2 : Sched) (dir : string)
        (patterns1 patterns2 : list string) :
  sched_ok sc1 ->
  sched_ok sc2 ->
  (forall q, q ∈ patterns1 <-> q ∈ patterns2) ->
  (forall root, (countLocs os sc1 root patterns1).1
                = (countLocs os sc2 root patterns2).1) /\
  (((1 < length patterns1)%nat <-> (1 < length patterns2)%nat) ->
   (forall l, rangePrint sc1 l = rangePrint sc2 l) ->
   elapsed sc1 = elapsed sc2 ->
   stdout (processInput os sc1 dir patterns1)
   = stdout (processInput os sc2 dir patterns2)).
Proof.
  intros Hsc1 Hsc2 Hset.
  split; [intros root; by apply countLocs_same_pattern_set|].
  intros Hlen Hprint Helapsed.
  unfold processInput. destruct (Abs os dir) as [absDir|e]; [|done].
  pose proof (countLocs_same_pattern_set os sc1 sc2 absDir _ _ Hsc1 Hsc2 Hset)
    as Hres.
  destruct (countLocs os sc1 absDir patterns1) as [r1 e1].
  destruct (countLocs os sc2 absDir patterns2) as [r2 e2].
  simpl in Hres. subst r2. cbn [stdout]. rewrite Hprint, Helapsed.
  destruct Hsc1 as (_ & Hs1 & _). destruct Hsc2 as (_ & Hs2 & _).
  rewrite (sumCounts_Permutation (rangeSum sc1 (map_to_list r1))
             (rangeSum sc2 (map_to_list r1))) by (by rewrite Hs1, Hs2).
  destruct (Nat.ltb_spec 1 (length patterns1)) as [H1|H1];
    destruct (Nat.ltb_spec 1 (length patterns2)) as [H2|H2]; try done; lia.
Qed.

Lemma report_depends_on_pattern_set_witness :
  sched_ok (seqSched "1ms") /\
  sched_ok (revGoSched "1ms") /\
  (forall q, q ∈ ["*.go"; "*.txt"] <-> q ∈ ["*.txt"; "*.go"; "*.txt"]) /\
  ((1 < length ["*.go"; "*.txt"])%nat
   <-> (1 < length ["*.txt"; "*.go"; "*.txt"])%nat) /\
  (forall l : list (string * Z),
     rangePrint (seqSched "1ms") l = rangePrint (revGoSched "1ms") l) /\
  elapsed (seqSched "1ms") = elapsed (revGoSched "1ms") /\
  stdout (processInput osDemo (seqSched "1ms") "/r" ["*.go"; "*.txt"])
  = stdout (processInput osDemo (revGoSched "1ms") "/r" ["*.txt"; "*.go"; "*.txt"]).
Proof.
  assert (Hset : forall q, q ∈ ["*.go"; "*.txt"] <-> q ∈ ["*.txt"; "*.go"; "*.txt"]).
  { intros q. rewrite !elem_of_cons, elem_of_nil. tauto. }
  assert (Hlen : (1 < length ["*.go"; "*.txt"])%nat
                 <-> (1 < length ["*.txt"; "*.go"; "*.txt"])%nat)
    by (simpl; lia).
  split; [apply seqSched_ok|]. split; [apply revGoSched_ok|].
  split; [exact Hset|]. split; [exact Hlen|].
  split; [reflexivity|]. split; [reflexivity|].
  exact (proj2 (report_depends_on_pattern_set osDemo (seqSched "1ms")
                  (revGoSched "1ms") "/r"
                  ["*.go"; "*.txt"] ["*.txt"; "*.go"; "*.txt"]
                  (seqSched_ok "1ms") (revGoSched_ok "1ms") Hset)
               Hlen (fun _ => eq_refl) eq_refl).
Defined.

Lemma revSched_ok d : sched_ok (revSched d).
Proof.
  repeat split; intros; simpl; symmetry; apply Permutation_rev.
Qed.

(** X8.  The counts do not depend on the schedule: whatever the order in
    which goroutines finish and maps are visited, [countLocs] returns the
    same map and the same messages, and [processInput] the same exit and
    the same standard error; two runs that also visit the map in the same
    order when printing, and take the same time, print the same. *)
Theorem counts_independent_of_schedule (os : OS) (sc1 sc2 : Sched)
        (dir : string) (patterns : list string) :
  sched_ok sc1 ->
  sched_ok sc2 ->
  (forall root, countLocs os sc1 root patterns = countLocs os sc2 root patterns) /\
  stderr (processInput os sc1 dir patterns)
    = stderr (processInput os sc2 dir patterns) /\
  exit (processInput os sc1 dir patterns)
    = exit (processInput os sc2 dir patterns) /\
  ((forall l, rangePrint sc1 l = rangePrint sc2 l) ->
   elapsed sc1 = elapsed sc2 ->
   processInput os sc1 dir patterns = processInput os sc2 dir patterns).
Proof.
  intros H1 H2.
  assert (Heq : forall root,
            countLocs os sc1 root patterns = countLocs os sc2 root patterns).
  { intros root.
    pose proof (countLocs_stderr os sc1 root patterns) as E1.
    pose proof (countLocs_stderr os sc2 root patterns) as E2.
    assert (Hm : (countLocs os sc1 root patterns).1
                 = (countLocs os sc2 root patterns).1).
    { apply map_eq. intros q. by rewrite !countLocs_lookup. }
    destruct (countLocs os sc1 root patterns) as [r1 e1].
    destruct (countLocs os sc2 root patterns) as [r2 e2].
    simpl in *. congruence. }
  split; [exact Heq|].
  unfold processInput. destruct (Abs os dir) as [absDir|e]; [|done].
  rewrite (Heq absDir). destruct (countLocs os sc2 absDir patterns) as [r err].
  cbn [stderr exit]. split; [done|]. split; [done|].
  intros Hprint Helapsed. rewrite Hprint, Helapsed. do 3 f_equal.
  destruct H1 as (_ & Hs1 & _). destruct H2 as (_ & Hs2 & _).
  apply sumCounts_Permutation. by rewrite Hs1, Hs2.
Qed.

Lemma counts_independent_of_schedule_witness :
  sched_ok (seqSched "1ms") /\
  sched_ok (revSched "2ms") /\
  countLocs osDemo (seqSched "1ms") "/r" ["*.go"; "["; "*"]
    = countLocs osDemo (revSched "2ms") "/r" ["*.go"; "["; "*"].
Proof.
  split; [apply seqSched_ok|]. split; [apply revSched_ok|].
  exact (proj1 (counts_independent_of_schedule osDemo (seqSched "1ms")
                  (revSched "2ms") "/r" ["*.go"; "["; "*"]
                  (seqSched_ok "1ms") (revSched_ok "2ms")) "/r").
Defined.

Lemma patternErrors_empty_iff os root patterns :
  patternErrors os root patterns = EmptyString
  <-> forall p, p ∈ patterns -> globOk os root p = true.
Proof.
  induction patterns as [|q rest IH]; cbn [patternErrors].
  - split; [|done]. intros _ p Hp. by apply elem_of_nil in Hp.
  - unfold globOk at 1. destruct (Glob os root q) as [matches|e] eqn:HG.
    + rewrite IH. split.
      * intros Hall p [->|Hp]%elem_of_cons; [|by apply Hall].
        unfold globOk. by rewrite HG.
      * intros Hall p Hp. apply Hall. by right.
    + split; [done|]. intros Hall.
      specialize (Hall q (list_elem_of_here _ _)).
      unfold globOk in Hall. by rewrite HG in Hall.
Qed.

(** X9.  Once the directory is resolved, standard error stays empty if and
    only if every supplied pattern is well formed. *)
Theorem stderr_empty_iff_patterns_well_formed (os : OS) (sc : Sched)
        (dir absDir : string) (patterns : list string) :
  Abs os dir = Ok absDir ->
  (stderr (processInput os sc dir patterns) = EmptyString
   <-> forall p, p ∈ patterns -> globOk os absDir p = true).
Proof.
  intros HA. unfold processInput. rewrite HA.
  pose proof (countLocs_stderr os sc absDir patterns) as Herr.
  destruct (countLocs os sc absDir patterns) as [results err].
  cbn [stderr]. simpl in Herr. subst err. apply patternErrors_empty_iff.
Qed.

Lemma stderr_empty_iff_patterns_well_formed_witness :
  Abs osDemo "/r" = Ok "/r" /\
  (stderr (processInput osDemo (seqSched "1ms") "/r" ["*.go"; "*.txt"])
     = EmptyString
   <-> forall p, p ∈ ["*.go"; "*.txt"] -> globOk osDemo "/r" p = true).
Proof.
  split; [reflexivity|].
  exact (stderr_empty_iff_patterns_well_formed osDemo (seqSched "1ms") "/r" "/r"
           ["*.go"; "*.txt"] eq_refl).
Defined.

Lemma processInput_exit_cases os sc dir patterns :
  (exit (processInput os sc dir patterns) = Some 1 /\
   stdout (processInput os sc dir patterns) = EmptyString /\
   stderr (processInput os sc dir patterns) <> EmptyString) \/
  (exit (processInput os sc dir patterns) = None /\
   stdout (processInput os sc dir patterns) <> EmptyString).
Proof.
  unfold processInput. destruct (Abs os dir) as [absDir|e].
  - right. destruct (countLocs os sc absDir patterns) as [results err].
    cbn [exit stdout]. split; [done|].
    destruct (1 <? length patterns)%nat.
    + unfold breakdown, breakdownHeader. rewrite !append_assoc. discriminate.
    + rewrite append_nil_l. discriminate.
  - left. cbn [exit stdout stderr]. split; [done|]. split; [done|]. discriminate.
Qed.

(** X10.  [main] ends with status 0 or 1.  With status 1 it has written
    nothing to standard output and a message to standard error; with
    status 0 it has written to standard output. *)
Theorem main_exit_status_and_output (os : OS) (sc : Sched) (args : list string) :
  (exitStatus (main os sc args) = 0 \/ exitStatus (main os sc args) = 1) /\
  (exitStatus (main os sc args) = 1 ->
   stdout (main os sc args) = EmptyString /\
   stderr (main os sc args) <> EmptyString) /\
  (exitStatus (main os sc args) = 0 ->
   stdout (main os sc args) <> EmptyString).
Proof.
  assert (Husage : (exitStatus usageError = 0 \/ exitStatus usageError = 1) /\
            (exitStatus usageError = 1 ->
             stdout usageError = EmptyString /\ stderr usageError <> EmptyString) /\
            (exitStatus usageError = 0 -> stdout usageError <> EmptyString)).
  { split; [by right|]. split; [by intros _; split|]. intros H. by vm_compute in H. }
  assert (Hprint : forall out, out = printHelp \/ out = printVersion ->
            (exitStatus out = 0 \/ exitStatus out = 1) /\
            (exitStatus out = 1 ->
             stdout out = EmptyString /\ stderr out <> EmptyString) /\
            (exitStatus out = 0 -> stdout out <> EmptyString)).
  { intros out [-> | ->]; (split; [by left|]); (split; [intros H; by vm_compute in H|]);
      intros _; by vm_compute. }
  destruct args as [|prog [|arg [|pattern rest]]]; try exact Husage.
  - unfold main. cbn [length Nat.ltb Nat.leb Nat.eqb nth].
    destruct (isHelpFlag arg); [apply Hprint; by left|].
    destruct (isVersionFlag arg); [apply Hprint; by right | exact Husage].
  - change (main os sc (prog :: arg :: pattern :: rest))
      with (processInput os sc arg (pattern :: rest)).
    unfold exitStatus.
    destruct (processInput_exit_cases os sc arg (pattern :: rest))
      as [(-> & Hout & Herr) | (-> & Hout)]; cbn [default].
    + split; [by right|]. split; [done|]. done.
    + split; [by left|]. split; [done|]. done.
Qed.

Lemma main_exit_status_and_output_witness :
  exitStatus (main osNoCwd (seqSched "1ms") ["count_locs"; "src"; "*.go"]) = 1 /\
  stdout (main osNoCwd (seqSched "1ms") ["count_locs"; "src"; "*.go"]) = EmptyString /\
  stderr (main osNoCwd (seqSched "1ms") ["count_locs"; "src"; "*.go"]) <> EmptyString.
Proof.
  assert (H1 : exitStatus (main osNoCwd (seqSched "1ms")
                             ["count_locs"; "src"; "*.go"]) = 1) by reflexivity.
  split; [exact H1|].
  exact (proj1 (proj2 (main_exit_status_and_output osNoCwd (seqSched "1ms")
                         ["count_locs"; "src"; "*.go"])) H1).
Defined.

Lemma length_remove_dups_le (l : list string) :
  (length (remove_dups l) <= length l)%nat.
Proof.
  induction l as [|x l IH]; simpl; [lia|].
  destruct (decide_rel elem_of x l); simpl; lia.
Qed.

Lemma length_remove_dups_eq (l : list string) :
  length (remove_dups l) = length l <-> NoDup l.
Proof.
  induction l as [|x l IH]; simpl.
  - split; [constructor | done].
  - pose proof (length_remove_dups_le l).
    destruct (decide_rel elem_of x l) as [Hin|Hnin]; simpl.
    + split; [lia|]. intros Hnd. apply NoDup_cons in Hnd as [? _]. done.
    + split.
      * intros Hlen. apply NoDup_cons. split; [done|]. apply IH. lia.
      * intros Hnd. apply NoDup_cons in Hnd as [_ Hnd]. apply IH in Hnd. lia.
Qed.

Lemma length_filter_eq (P : string -> Prop) `{forall x, Decision (P x)}
      (l : list string) :
  length (filter P l) = length l <-> forall x, x ∈ l -> P x.
Proof.
  induction l as [|x l IH]; [split; [intros _ y Hy; by apply elem_of_nil in Hy | done]|].
  rewrite filter_cons. pose proof (length_filter P l).
  destruct (decide (P x)) as [HP|HP]; simpl.
  - split.
    + intros Hlen y [->|Hy]%elem_of_cons; [done|]. apply IH; [lia | done].
    + intros Hall. f_equal. apply IH. intros y Hy. apply Hall. by right.
  - split; [lia|]. intros Hall. exfalso. apply HP, Hall. by left.
Qed.

Lemma filter_all (P : string -> Prop) `{forall x, Decision (P x)}
      (l : list string) :
  (forall x, x ∈ l -> P x) -> filter P l = l.
Proof.
  induction l as [|x l IH]; intros Hall; [done|].
  rewrite filter_cons, decide_True by (apply Hall; by left).
  f_equal. apply IH. intros y Hy. apply Hall. by right.
Qed.

(** X11.  In a run with more than one pattern, the breakdown that is
    printed has one line [-  <pattern>: <count>] per entry of the map of
    results, never more lines than patterns were supplied, and as many
    exactly when the supplied patterns are distinct and all well formed. *)
Theorem breakdown_line_count (os : OS) (sc : Sched) (dir absDir : string)
        (patterns : list string) :
  sched_ok sc ->
  Abs os dir = Ok absDir ->
  (1 < length patterns)%nat ->
  exists entries : list (string * Z),
    entries ≡ₚ map_to_list (countLocs os sc absDir patterns).1 /\
    stdout (processInput os sc dir patterns) =
      "Breakdown of Lines of Code by Glob:" +:+ nl +:+ nl +:+
      String.concat EmptyString
        (map (fun e : string * Z =>
                "-  " +:+ e.1 +:+ ": " +:+ pretty e.2 +:+ nl) entries)
      +:+ nl +:+
      "Total:" +:+ tab +:+ pretty (grandTotal os absDir patterns) +:+
      " lines of code" +:+ nl +:+ nl +:+
      "Elapsed time: " +:+ elapsed sc +:+ nl /\
    (length entries <= length patterns)%nat /\
    (length entries = length patterns
     <-> NoDup patterns /\ forall p, p ∈ patterns -> globOk os absDir p = true).
Proof.
  intros Hsc HA Hlt. pose proof Hsc as (_ & _ & Hprint).
  exists (rangePrint sc (map_to_list (countLocs os sc absDir patterns).1)).
  split; [apply Hprint|]. split.
  { destruct (processInput_resolved os sc dir absDir patterns Hsc HA) as [_ ->].
    cbn [stdout]. apply Nat.ltb_lt in Hlt. rewrite Hlt.
    unfold breakdown, breakdownHeader, breakdownLine, totalSection.
    by rewrite !append_assoc. }
  rewrite (Permutation_length (Hprint _)).
  rewrite (Permutation_length (countLocs_entries os sc absDir Hsc patterns)).
  rewrite length_map. unfold countedPatterns.
  pose proof (length_remove_dups_le
                (filter (fun p => globOk os absDir p = true) patterns)) as Hle1.
  pose proof (length_filter (fun p => globOk os absDir p = true) patterns) as Hle2.
  split; [lia|]. split.
  - intros Hlen.
    assert (Hok : length (filter (fun p => globOk os absDir p = true) patterns)
                  = length patterns) by lia.
    pose proof (proj1 (length_filter_eq (fun p => globOk os absDir p = true)
                         patterns) Hok) as Hall.
    split; [|done].
    rewrite <- (filter_all (fun p => globOk os absDir p = true) patterns Hall).
    apply length_remove_dups_eq. lia.
  - intros [Hnd Hall].
    rewrite (filter_all (fun p => globOk os absDir p = true) patterns Hall).
    by apply length_remove_dups_eq.
Qed.

Lemma breakdown_line_count_witness :
  sched_ok (seqSched "1ms") /\
  Abs osDemo "/r" = Ok "/r" /\
  (1 < length ["*.go"; "["; "*.go"])%nat /\
  exists entries : list (string * Z),
    entries ≡ₚ map_to_list (countLocs osDemo (seqSched "1ms") "/r"
                              ["*.go"; "["; "*.go"]).1 /\
    stdout (processInput osDemo (seqSched "1ms") "/r" ["*.go"; "["; "*.go"]) =
      "Breakdown of Lines of Code by Glob:" +:+ nl +:+ nl +:+
      String.concat EmptyString
        (map (fun e : string * Z =>
                "-  " +:+ e.1 +:+ ": " +:+ pretty e.2 +:+ nl) entries)
      +:+ nl +:+
      "Total:" +:+ tab +:+ pretty (grandTotal osDemo "/r" ["*.go"; "["; "*.go"]) +:+
      " lines of code" +:+ nl +:+ nl +:+
      "Elapsed time: " +:+ elapsed (seqSched "1ms") +:+ nl /\
    (length entries <= length ["*.go"; "["; "*.go"])%nat /\
    (length entries = length ["*.go"; "["; "*.go"]
     <-> NoDup ["*.go"; "["; "*.go"] /\
         forall p, p ∈ ["*.go"; "["; "*.go"] -> globOk osDemo "/r" p = true).
Proof.
  assert (Hlt : (1 < length ["*.go"; "["; "*.go"])%nat) by (simpl; lia).
  split; [apply seqSched_ok|]. split; [reflexivity|]. split; [exact Hlt|].
  exact (breakdown_line_count osDemo (seqSched "1ms") "/r" "/r"
           ["*.go"; "["; "*.go"] (seqSched_ok "1ms") eq_refl Hlt).
Defined.

(** X12.  When no supplied pattern matches a file (all are malformed, or
    match nothing, or match only directories and entries whose stat
    fails), every recorded total is 0 and the report shows a total of 0;
    the run does not exit with an error. *)
Theorem no_match_reports_zero (os : OS) (sc : Sched) (dir absDir : string)
        (patterns : list string) :
  sched_ok sc ->
  Abs os dir = Ok absDir ->
  (forall p, p ∈ patterns -> matchedFiles os absDir p = []) ->
  exit (processInput os sc dir patterns) = None /\
  (forall p c, (countLocs os sc absDir patterns).1 !! p = Some c -> c = 0) /\
  exists section,
    stdout (processInput os sc dir patterns) =
      section +:+ "Total:" +:+ tab +:+ "0 lines of code" +:+ nl +:+ nl +:+
      "Elapsed time: " +:+ elapsed sc +:+ nl.
Proof.
  intros Hsc HA Hnone.
  assert (Hzero : forall p, p ∈ patterns -> patternTotal os absDir p = 0).
  { intros p Hp. unfold patternTotal, sumOfCounts. by rewrite (Hnone p Hp). }
  destruct (processInput_resolved os sc dir absDir patterns Hsc HA) as [_ ->].
  cbn [exit stdout]. split; [done|]. split.
  - intros p c. rewrite countLocs_lookup by done.
    case_decide as Hd; [|done]. intros [= <-]. apply Hzero, Hd.
  - eexists. f_equal. unfold totalSection. do 2 f_equal.
    assert (Hg : grandTotal os absDir patterns = 0); [|by rewrite Hg].
    unfold grandTotal.
    rewrite (sumZ_ext_in _ (fun _ => 0)).
    + by induction (countedPatterns os absDir patterns).
    + intros p Hp. apply elem_of_countedPatterns in Hp as [Hp _]. by apply Hzero.
Qed.

Lemma no_match_reports_zero_witness :
  sched_ok (seqSched "1ms") /\
  Abs osEmpty "/no/such/dir" = Ok "/no/such/dir" /\
  (forall p, p ∈ ["*.go"; "*.rs"] -> matchedFiles osEmpty "/no/such/dir" p = []) /\
  exit (processInput osEmpty (seqSched "1ms") "/no/such/dir" ["*.go"; "*.rs"])
    = None.
Proof.
  assert (Hnone : forall p, p ∈ ["*.go"; "*.rs"] ->
                            matchedFiles osEmpty "/no/such/dir" p = [])
    by (intros p _; reflexivity).
  split; [apply seqSched_ok|]. split; [reflexivity|]. split; [exact Hnone|].
  exact (proj1 (no_match_reports_zero osEmpty (seqSched "1ms") "/no/such/dir"
                  "/no/such/dir" ["*.go"; "*.rs"]
                  (seqSched_ok "1ms") eq_refl Hnone)).
Defined.

Lemma spawned_ext os1 os2 root matches :
  (forall a b, Join os1 a b = Join os2 a b) ->
  (forall p, Stat os1 p = Stat os2 p) ->
  spawned os1 root matches = spawned os2 root matches.
Proof.
  intros HJ HS. induction matches as [|file rest IH]; [done|].
  cbn [spawned]. by rewrite HJ, HS, IH.
Qed.

Lemma patternErrors_ext os1 os2 root patterns :
  (forall r p, Glob os1 r p = Glob os2 r p) ->
  patternErrors os1 root patterns = patternErrors os2 root patterns.
Proof.
  intros HG. induction patterns as [|p rest IH]; [done|].
  cbn [patternErrors]. by rewrite HG, IH.
Qed.

(** X13.  [countLocs] reads the matched files only: on two machines that
    agree on the glob matcher, on [os.Stat] and on the content of the
    matched files of the supplied patterns, it returns the same map and the
    same messages, whatever the other files, the directories and the
    entries whose stat fails hold. *)
Theorem countLocs_reads_matched_files_only (os1 os2 : OS) (sc : Sched)
        (root : string) (patterns : list string) :
  sched_ok sc ->
  (forall r p, Glob os1 r p = Glob os2 r p) ->
  (forall a b, Join os1 a b = Join os2 a b) ->
  (forall p, Stat os1 p = Stat os2 p) ->
  (forall p g, p ∈ patterns -> g ∈ matchedFiles os1 root p ->
               Open os1 g = Open os2 g) ->
  countLocs os1 sc root patterns = countLocs os2 sc root patterns.
Proof.
  intros Hsc HG HJ HS HO.
  assert (Hok : forall q, globOk os1 root q = globOk os2 root q).
  { intros q. unfold globOk. by rewrite HG. }
  assert (Hfiles : forall q, matchedFiles os1 root q = matchedFiles os2 root q).
  { intros q. unfold matchedFiles. rewrite HG.
    destruct (Glob os2 root q); [by apply spawned_ext | done]. }
  assert (Htot : forall q, q ∈ patterns ->
                   patternTotal os1 root q = patternTotal os2 root q).
  { intros q Hq. unfold patternTotal, sumOfCounts. rewrite <- Hfiles. f_equal.
    apply sumZ_ext_in. intros g Hg. unfold countLines. by rewrite (HO q g). }
  pose proof (countLocs_stderr os1 sc root patterns) as E1.
  pose proof (countLocs_stderr os2 sc root patterns) as E2.
  rewrite (patternErrors_ext os1 os2 root patterns HG) in E1.
  assert (Hm : (countLocs os1 sc root patterns).1
               = (countLocs os2 sc root patterns).1).
  { apply map_eq. intros q. rewrite !countLocs_lookup by done.
    destruct (decide (q ∈ patterns /\ globOk os1 root q = true)) as [[H1 H2]|Hn].
    - rewrite decide_True by (by rewrite <- Hok). f_equal. by apply Htot.
    - rewrite decide_False; [done|]. by rewrite <- Hok. }
  destruct (countLocs os1 sc root patterns) as [r1 e1].
  destruct (countLocs os2 sc root patterns) as [r2 e2].
  simpl in *. congruence.
Qed.

Lemma countLocs_reads_matched_files_only_witness :
  sched_ok (seqSched "1ms") /\
  (forall p g, p ∈ ["*.go"; "*.txt"] -> g ∈ matchedFiles osDemo "/r" p ->
               Open osDemo g = Open osDemoTouched g) /\
  Open osDemo "/r/min.js" <> Open osDemoTouched "/r/min.js" /\
  countLocs osDemo (seqSched "1ms") "/r" ["*.go"; "*.txt"]
    = countLocs osDemoTouched (seqSched "1ms") "/r" ["*.go"; "*.txt"].
Proof.
  assert (HO : forall p g, p ∈ ["*.go"; "*.txt"] ->
                 g ∈ matchedFiles osDemo "/r" p ->
                 Open osDemo g = Open osDemoTouched g).
  { intros p g Hp. apply elem_of_cons in Hp as [->|Hp];
      [|apply elem_of_cons in Hp as [->|Hp]; [|by apply elem_of_nil in Hp]];
      intros Hg; vm_compute in Hg;
      (apply elem_of_cons in Hg as [->|Hg]; [reflexivity | by apply elem_of_nil in Hg]). }
  split; [apply seqSched_ok|]. split; [exact HO|]. split; [discriminate|].
  exact (countLocs_reads_matched_files_only osDemo osDemoTouched (seqSched "1ms")
           "/r" ["*.go"; "*.txt"] (seqSched_ok "1ms")
           (fun _ _ => eq_refl) (fun _ _ => eq_refl) (fun _ => eq_refl) HO).
Defined.

(** ** Files matched by several patterns, listed any number of times *)









